(** * ai-audio-vision-lab: vision and audio interfaces, demo mapper

    A shallow embedding of
    - [src/interfaces/vision_interface.py]  (BoundingBox, DetectedObject,
      MockVisionProcessor),
    - [src/interfaces/audio_interface.py]   (MusicalKey, TimeSignature,
      MusicalParameters, GeneratedAudio, MockMusicGenerator),
    - [demo/simple_demo.py]                 (ObjectToMusicDemo),
    together with the properties the specification states about them.

    Conventions of the embedding.
    - Python [int] is [Z]; Python [str] is [string], the UTF-8 bytes of
      the text; a [dict] is a [gmap]; a [list] is a [list]; [Optional[T]]
      is [option T].
    - [str.title] depends on the Unicode character database: it is a
      parameter, [StrTitle], known on ASCII text ([StrTitleLaws]).
    - Python [float] is [pyfloat] below: NaN, the two infinities, and the
      finite values as the rationals they denote.  Float literals stand for
      the exact value of the binary64 number Python reads them as.
    - A Python exception is a value of [exn]; code that may raise returns
      [result]. *)

From Stdlib Require Import ZArith QArith Qabs Lqa Lia.
From Stdlib Require Import Ascii String DecimalString DecimalZ.
From stdpp Require Import base gmap strings list fin_maps functions.

Open Scope Z_scope.

(** ** Exceptions and fallible computations *)

Inductive exn : Type :=
| ValueError
| OverflowError
| IndexError
| KeyError
| OSError.

Inductive result (A : Type) : Type :=
| Ok (a : A)
| Raise (e : exn).
Arguments Ok {A} a.
Arguments Raise {A} e.

(** Sequencing: the first exception raised aborts the rest.  With these
    instances stdpp's [x ← c; k] reads as a Python statement sequence. *)
#[global] Instance result_ret : MRet result := fun A a => Ok a.
#[global] Instance result_bind : MBind result := fun A B k r =>
  match r with
  | Ok a => k a
  | Raise e => Raise e
  end.

(** ** Python floats *)

Module PyFloat.

Inductive pyfloat : Type :=
| FNaN
| FNegInf
| FFin (q : Q)
| FPosInf.

(** [a <= b] on floats; every comparison with NaN is false. *)
Definition fle (a b : pyfloat) : bool :=
  match a, b with
  | FNaN, _ | _, FNaN => false
  | FNegInf, _ => true
  | _, FPosInf => true
  | FFin x, FFin y => Qle_bool x y
  | _, _ => false
  end.

(** [a < b] on floats. *)
Definition flt (a b : pyfloat) : bool :=
  match a, b with
  | FNaN, _ | _, FNaN => false
  | FNegInf, FNegInf => false
  | FNegInf, _ => true
  | FPosInf, _ => false
  | FFin x, FFin y => negb (Qle_bool y x)
  | FFin _, FPosInf => true
  | FFin _, FNegInf => false
  end.

(** [a >= b] and [a > b] as Python evaluates them. *)
Definition fge (a b : pyfloat) : bool := fle b a.
Definition fgt (a b : pyfloat) : bool := flt b a.

(** [a == b] on floats. *)
Definition feq (a b : pyfloat) : bool :=
  match a, b with
  | FNegInf, FNegInf | FPosInf, FPosInf => true
  | FFin x, FFin y => Qeq_bool x y
  | _, _ => false
  end.

Definition is_nan (a : pyfloat) : bool :=
  match a with FNaN => true | _ => false end.

(** The order on float values as a relation, stated without [fle]:
    NaN is unrelated to everything, [-inf] is below and [+inf] above
    every other value, finite values compare as rationals. *)
Inductive Fle : pyfloat -> pyfloat -> Prop :=
| Fle_fin x y : (x <= y)%Q -> Fle (FFin x) (FFin y)
| Fle_ninf_ninf : Fle FNegInf FNegInf
| Fle_ninf_fin y : Fle FNegInf (FFin y)
| Fle_ninf_pinf : Fle FNegInf FPosInf
| Fle_fin_pinf x : Fle (FFin x) FPosInf
| Fle_pinf_pinf : Fle FPosInf FPosInf.

Inductive Flt : pyfloat -> pyfloat -> Prop :=
| Flt_fin x y : (x < y)%Q -> Flt (FFin x) (FFin y)
| Flt_ninf_fin y : Flt FNegInf (FFin y)
| Flt_ninf_pinf : Flt FNegInf FPosInf
| Flt_fin_pinf x : Flt (FFin x) FPosInf.

(** Equality of float values ([==]); NaN equals nothing. *)
Inductive Feq : pyfloat -> pyfloat -> Prop :=
| Feq_fin x y : (x == y)%Q -> Feq (FFin x) (FFin y)
| Feq_ninf : Feq FNegInf FNegInf
| Feq_pinf : Feq FPosInf FPosInf.

(** Float literals of the sources, as the binary64 values they denote. *)
Definition lit_0_1 : pyfloat := FFin (3602879701896397 # 36028797018963968).
Definition lit_0_2 : pyfloat := FFin (3602879701896397 # 18014398509481984).
Definition lit_0_3 : pyfloat := FFin (5404319552844595 # 18014398509481984).
Definition lit_0_5 : pyfloat := FFin (1 # 2).
Definition lit_0_6 : pyfloat := FFin (5404319552844595 # 9007199254740992).
Definition lit_0_7 : pyfloat := FFin (3152519739159347 # 4503599627370496).
Definition lit_0_75 : pyfloat := FFin (3 # 4).
Definition lit_0_9 : pyfloat := FFin (8106479329266893 # 9007199254740992).
Definition lit_0_95 : pyfloat := FFin (4278419646001971 # 4503599627370496).
Definition lit_2_0 : pyfloat := FFin 2.
Definition lit_4_0 : pyfloat := FFin 4.
Definition lit_10_0 : pyfloat := FFin 10.
Definition lit_30_0 : pyfloat := FFin 30.

(** [float(n)] for an [int] small enough to be exact. *)
Definition of_int (z : Z) : pyfloat := FFin (inject_Z z).

(** Rounding of an exact result to binary64.  The sources never depend on
    the digits of a rounded result, only on two laws every rounding mode
    of IEEE 754 has: it is monotone, and it leaves the integers up to 2^53
    alone.  Overflow of a finite result to an infinity is left out: the
    products and sums of the sources stay far below the largest binary64
    value on every path that goes on to use them. *)
Class Binary64 : Type := { rnd : Q -> Q }.

Class Binary64Laws (B : Binary64) : Prop := {
  rnd_mono : forall x y : Q, (x <= y)%Q -> (rnd x <= rnd y)%Q;
  rnd_int : forall z : Z, Z.abs z <= 2 ^ 53 -> (rnd (inject_Z z) == inject_Z z)%Q
}.

(** Sign of a finite value: [Gt] positive, [Lt] negative, [Eq] zero. *)
Definition sign_of (q : Q) : comparison := (q ?= 0)%Q.

(** [a * b] *)
Definition fmul {B : Binary64} (a b : pyfloat) : pyfloat :=
  match a, b with
  | FNaN, _ | _, FNaN => FNaN
  | FFin x, FFin y => FFin (rnd (x * y))
  | FPosInf, FPosInf | FNegInf, FNegInf => FPosInf
  | FPosInf, FNegInf | FNegInf, FPosInf => FNegInf
  | FPosInf, FFin y | FFin y, FPosInf =>
      match sign_of y with Gt => FPosInf | Lt => FNegInf | Eq => FNaN end
  | FNegInf, FFin y | FFin y, FNegInf =>
      match sign_of y with Gt => FNegInf | Lt => FPosInf | Eq => FNaN end
  end.

(** [a + b] *)
Definition fadd {B : Binary64} (a b : pyfloat) : pyfloat :=
  match a, b with
  | FNaN, _ | _, FNaN => FNaN
  | FFin x, FFin y => FFin (rnd (x + y))
  | FPosInf, FNegInf | FNegInf, FPosInf => FNaN
  | FPosInf, _ | _, FPosInf => FPosInf
  | FNegInf, _ | _, FNegInf => FNegInf
  end.

(** [a - b] *)
Definition fsub {B : Binary64} (a b : pyfloat) : pyfloat :=
  match a, b with
  | FNaN, _ | _, FNaN => FNaN
  | FFin x, FFin y => FFin (rnd (x - y))
  | FPosInf, FPosInf | FNegInf, FNegInf => FNaN
  | FPosInf, _ | _, FNegInf => FPosInf
  | FNegInf, _ | _, FPosInf => FNegInf
  end.

(** [a / b]; a zero divisor gives an infinity or NaN, as numpy does. *)
Definition fdiv {B : Binary64} (a b : pyfloat) : pyfloat :=
  match a, b with
  | FNaN, _ | _, FNaN => FNaN
  | FFin x, FFin y =>
      match sign_of y with
      | Eq => match sign_of x with Gt => FPosInf | Lt => FNegInf | Eq => FNaN end
      | _ => FFin (rnd (x / y))
      end
  | FFin _, _ => FFin 0
  | FPosInf, FFin y => match sign_of y with Lt => FNegInf | _ => FPosInf end
  | FNegInf, FFin y => match sign_of y with Lt => FPosInf | _ => FNegInf end
  | _, _ => FNaN
  end.

(** The functions of the C math library that numpy calls. *)
Class Libm : Type := { fsin : pyfloat -> pyfloat }.

(** The builtin [min(a, b)] of two floats: the second argument replaces
    the first only when it compares strictly smaller. *)
Definition fmin (a b : pyfloat) : pyfloat := if flt b a then b else a.

(** The integer part of a rational, rounding toward zero. *)
Definition truncate (q : Q) : Z := Z.quot (Qnum q) (Z.pos (Qden q)).

(** [int(a)]: truncation toward zero; NaN and the infinities raise. *)
Definition int_of_float (a : pyfloat) : result Z :=
  match a with
  | FNaN => Raise ValueError
  | FNegInf | FPosInf => Raise OverflowError
  | FFin q => Ok (truncate q)
  end.

End PyFloat.
Import PyFloat.

(** ** Python strings *)

Module PyStr.

(** [str(n)] for an [int]: decimal digits, a leading [-] when negative. *)
Definition str_of_int (z : Z) : string :=
  NilZero.string_of_int (Z.to_int z).

Definition is_lower (c : ascii) : bool :=
  let n := nat_of_ascii c in (97 <=? n)%nat && (n <=? 122)%nat.

Definition is_upper (c : ascii) : bool :=
  let n := nat_of_ascii c in (65 <=? n)%nat && (n <=? 90)%nat.

Definition to_upper (c : ascii) : ascii :=
  if is_lower c then ascii_of_nat (nat_of_ascii c - 32) else c.

Definition to_lower (c : ascii) : ascii :=
  if is_upper c then ascii_of_nat (nat_of_ascii c + 32) else c.

(** The loop of [s.title()] on ASCII text, where the cased characters
    are the letters [A-Z] and [a-z]: a letter is upper-cased when the
    character before it is not a letter and lower-cased when it is. *)
Fixpoint title_from (previous_is_cased : bool) (s : string) : string :=
  match s with
  | EmptyString => EmptyString
  | String c rest =>
      if is_lower c then
        String (if previous_is_cased then c else to_upper c) (title_from true rest)
      else if is_upper c then
        String (if previous_is_cased then to_lower c else c) (title_from true rest)
      else String c (title_from false rest)
  end.

Definition ascii_title (s : string) : string := title_from false s.

(** Text whose characters are all ASCII. *)
Fixpoint ascii_text (s : string) : bool :=
  match s with
  | EmptyString => true
  | String c rest => (nat_of_ascii c <? 128)%nat && ascii_text rest
  end.

(** [s.title()].  A [str] is held as its UTF-8 bytes, and Python cases a
    character by the Unicode character database, which is no part of the
    sources: the method is a parameter.  What is known of it is its
    value on ASCII text; beyond ASCII it may change any character, and
    the length. *)
Class StrTitle := { title : string -> string }.

Class StrTitleLaws (T : StrTitle) : Prop := {
  title_ascii : forall s : string, ascii_text s = true -> title s = ascii_title s
}.

End PyStr.
Import PyStr.

(** ** Values stored in the dictionaries of the sources *)

Inductive pyval : Type :=
| VInt (n : Z)
| VFloat (f : pyfloat)
| VStr (s : string)
| VStrList (l : list string).

(** ** The process-wide state the mock components touch *)

(** [time.time()], [time.sleep()] and the [random] module act on state
    outside the objects: a clock and a source of random draws.  The draws
    are an arbitrary sequence consumed one at a time. *)
Record world : Type := mkWorld {
  clock : Q;
  draws : nat -> N;
  cursor : nat
}.

Module PyRuntime.

(** [time.time()] *)
Definition time_time (w : world) : pyfloat := FFin (clock w).

(** CPython (3.11, Linux on x86-64) turns the argument of [time.sleep]
    into a 64-bit count of nanoseconds before it looks at the sign.  The
    binary64 product [secs * 1e9], rounded to nearest even, is tested
    against -2^63 and 2^63, both allowed; the doubles next to these are
    at -(2^63 + 2048) and 2^63 + 2048, so the rounded product passes
    exactly when the exact one lies between -(2^63 + 1024) and
    2^63 + 1024. *)
Definition sleep_in_range (q : Q) : bool :=
  Qle_bool (- (9223372036854776832)) (q * 1000000000)
  && Qle_bool (q * 1000000000) 9223372036854776832.

(** A product that rounds to 2^63 itself, an exact product from
    2^63 - 512 on, passes the test and does not fit 64 bits: the
    conversion wraps to -2^63, a negative count. *)
Definition sleep_wraps (q : Q) : bool :=
  Qle_bool 9223372036854775296 (q * 1000000000).

(** [time.sleep(secs)]: NaN raises [ValueError]; an infinity, or a length
    whose nanoseconds are out of range, raises [OverflowError]; a negative
    count of nanoseconds raises [ValueError]; a length of 9223372036
    seconds or more that is left is refused by the kernel, [OSError],
    since the deadline, the monotonic clock plus the length, is past the
    last instant it counts.  Otherwise the clock advances: the monotonic
    clock is no part of the world, and a shorter sleep is taken to end. *)
Definition time_sleep (secs : pyfloat) (w : world) : result world :=
  match secs with
  | FNaN => Raise ValueError
  | FNegInf | FPosInf => Raise OverflowError
  | FFin q =>
      if negb (sleep_in_range q) then Raise OverflowError
      else if sleep_wraps q || negb (Qle_bool 0 q) then Raise ValueError
      else if Qle_bool 9223372036 q then Raise OSError
      else Ok (mkWorld (clock w + q) (draws w) (cursor w))
  end.

Definition next_draw (w : world) : N * world :=
  (draws w (cursor w), mkWorld (clock w) (draws w) (S (cursor w))).

(** [random.randint(a, b)]: an integer of [a..b]; an empty range raises. *)
Definition randint (a b : Z) (w : world) : result (Z * world) :=
  if b <? a then Raise ValueError
  else let '(d, w') := next_draw w in
       Ok (a + Z.of_N d mod (b - a + 1), w').

(** [random.choice(seq)]: an element of [seq]; an empty one raises. *)
Definition choice {A} (seq : list A) (w : world) : result (A * world) :=
  let '(d, w') := next_draw w in
  match seq !! (N.to_nat d mod length seq)%nat with
  | Some x => Ok (x, w')
  | None => Raise IndexError
  end.

(** [random.random()]: a multiple of 2^-53 in [0, 1). *)
Definition random_unit (w : world) : pyfloat * world :=
  let '(d, w') := next_draw w in
  (FFin (Z.of_N d mod 2 ^ 53 # 9007199254740992), w').

(** [random.uniform(a, b)] is [a + (b - a) * random()]. *)
Definition uniform {B : Binary64} (a b : pyfloat) (w : world) : pyfloat * world :=
  let '(r, w') := random_unit w in
  (fadd a (fmul (fsub b a) r), w').

End PyRuntime.
Import PyRuntime.

(** ** vision_interface.py *)

Module Vision.

Inductive ConfidenceLevel : Type :=
| LOW
| MEDIUM
| HIGH
| VERY_HIGH.

(** The value of each member of the enum. *)
Definition ConfidenceLevel_value (c : ConfidenceLevel) : string :=
  match c with
  | LOW => "low"
  | MEDIUM => "medium"
  | HIGH => "high"
  | VERY_HIGH => "very_high"
  end.

(** Position of a level in the declaration order of the enum. *)
Definition level_rank (c : ConfidenceLevel) : nat :=
  match c with
  | LOW => 0
  | MEDIUM => 1
  | HIGH => 2
  | VERY_HIGH => 3
  end.

Record BoundingBox : Type := mkBoundingBox {
  x : Z;
  y : Z;
  width : Z;
  height : Z
}.

(** [BoundingBox.center]; [//] is floor division. *)
Definition center (b : BoundingBox) : Z * Z :=
  (x b + width b / 2, y b + height b / 2).

(** [BoundingBox.area] *)
Definition area (b : BoundingBox) : Z := width b * height b.

Record DetectedObject : Type := mkDetectedObject {
  object_id : string;
  class_name : string;
  confidence : pyfloat;
  bounding_box : BoundingBox;
  timestamp : pyfloat;
  semantic_properties : option (gmap string pyfloat);
  emotional_associations : option (gmap string pyfloat)
}.

(** [DetectedObject.confidence_level] *)
Definition confidence_level (o : DetectedObject) : ConfidenceLevel :=
  if fge (confidence o) lit_0_9 then VERY_HIGH
  else if fge (confidence o) lit_0_75 then HIGH
  else if fge (confidence o) lit_0_5 then MEDIUM
  else LOW.

(** [DetectedObject.is_reliable(threshold=0.7)]; [None] is a call that
    leaves the argument out. *)
Definition is_reliable (o : DetectedObject) (threshold : option pyfloat) : bool :=
  let threshold := default lit_0_7 threshold in
  fge (confidence o) threshold.

Record FrameMetadata : Type := mkFrameMetadata {
  frame_id : Z;
  fm_timestamp : pyfloat;
  resolution : Z * Z;
  fps : option pyfloat;
  lighting_conditions : option string
}.

(** A frame: of a numpy array the detector reads the shape only. *)
Record ndarray : Type := mkNdarray { shape : list Z }.

(** [frame.shape[i]] for [i >= 0] *)
Definition shape_at (frame : ndarray) (i : nat) : result Z :=
  match shape frame !! i with
  | Some n => Ok n
  | None => Raise IndexError
  end.

Record MockVisionProcessor : Type := mkMockVisionProcessor {
  initialized : bool;
  supported_classes : list string
}.

(** [MockVisionProcessor.__init__] *)
Definition new_processor : MockVisionProcessor :=
  mkMockVisionProcessor false
    ["plant"; "book"; "cup"; "laptop"; "phone";
     "bottle"; "clock"; "lamp"; "camera"; "guitar"].

(** [MockVisionProcessor.initialize]: the configuration is not read. *)
Definition initialize (self : MockVisionProcessor) : MockVisionProcessor * bool :=
  (mkMockVisionProcessor true (supported_classes self), true).

(** [MockVisionProcessor.cleanup] *)
Definition cleanup (self : MockVisionProcessor) : MockVisionProcessor :=
  mkMockVisionProcessor false (supported_classes self).

(** One turn of the loop of [detect_objects], for index [i]. *)
Definition detect_one {B : Binary64} (self : MockVisionProcessor) (frame : ndarray)
    (i : Z) (w : world) : result (DetectedObject * world) :=
  '(cls, w) ← choice (supported_classes self) w;
  let '(conf, w) := uniform lit_0_6 lit_0_95 w in
  s1 ← shape_at frame 1;
  '(bx, w) ← randint 0 (s1 - 100) w;
  s0 ← shape_at frame 0;
  '(by_, w) ← randint 0 (s0 - 100) w;
  '(bw, w) ← randint 50 150 w;
  '(bh, w) ← randint 50 150 w;
  mret (mkDetectedObject ("obj_" +:+ str_of_int i) cls conf
          (mkBoundingBox bx by_ bw bh) (time_time w) None None, w).

(** [for i in range(start, start + n)]: the detections are appended to
    [acc] in order. *)
Fixpoint detect_loop {B : Binary64} (self : MockVisionProcessor) (frame : ndarray)
    (n : nat) (i : Z) (acc : list DetectedObject) (w : world)
    : result (list DetectedObject * world) :=
  match n with
  | O => mret (acc, w)
  | S n' =>
      '(d, w) ← detect_one self frame i w;
      detect_loop self frame n' (i + 1) (acc ++ [d]) w
  end.

(** [MockVisionProcessor.detect_objects]; the metadata is not read. *)
Definition detect_objects {B : Binary64} (self : MockVisionProcessor)
    (frame : ndarray) (metadata : option FrameMetadata) (w : world)
    : result (list DetectedObject * world) :=
  if negb (initialized self) then mret ([], w)
  else
    '(num_objects, w) ← randint 1 3 w;
    detect_loop self frame (Z.to_nat num_objects) 0 [] w.

End Vision.

Import Vision.

(** ** numpy *)

Module NumPy.

(** [np.pi] *)
Definition np_pi : pyfloat := FFin (884279719003555 # 281474976710656).

(** [range(n)] as integers *)
Definition range (n : Z) : list Z := map Z.of_nat (seq 0 (Z.to_nat n)).

(** [np.linspace(start, stop, num)]: [num] evenly spaced samples with
    both ends included; a negative [num] raises. *)
Definition linspace {B : Binary64} (start stop : pyfloat) (num : Z)
    : result (list pyfloat) :=
  if num <? 0 then Raise ValueError
  else
    let div := num - 1 in
    let delta := fsub stop start in
    let step := if 0 <? div then fdiv delta (of_int div) else delta in
    Ok (map (fun i =>
               if (0 <? div) && (i =? div) then stop
               else fadd (fmul (of_int i) step) start)
            (range num)).

End NumPy.
Import NumPy.

(** ** audio_interface.py *)

Module Audio.

Inductive MusicStyle : Type :=
| AMBIENT
| CLASSICAL
| JAZZ
| ELECTRONIC
| FOLK
| ROCK
| WORLD
| EXPERIMENTAL.

Definition MusicStyle_value (s : MusicStyle) : string :=
  match s with
  | AMBIENT => "ambient"
  | CLASSICAL => "classical"
  | JAZZ => "jazz"
  | ELECTRONIC => "electronic"
  | FOLK => "folk"
  | ROCK => "rock"
  | WORLD => "world"
  | EXPERIMENTAL => "experimental"
  end.

Inductive InstrumentFamily : Type :=
| PIANO
| STRINGS
| BRASS
| WOODWINDS
| PERCUSSION
| SYNTHESIZER
| GUITAR
| BASS.

Definition InstrumentFamily_value (i : InstrumentFamily) : string :=
  match i with
  | PIANO => "piano"
  | STRINGS => "strings"
  | BRASS => "brass"
  | WOODWINDS => "woodwinds"
  | PERCUSSION => "percussion"
  | SYNTHESIZER => "synthesizer"
  | GUITAR => "guitar"
  | BASS => "bass"
  end.

Record MusicalKey : Type := mkMusicalKey {
  tonic : string;
  mode : string
}.

(** [MusicalKey.__str__]: [f"{self.tonic} {self.mode.title()}"] *)
Definition MusicalKey_str {T : StrTitle} (k : MusicalKey) : string :=
  tonic k +:+ " " +:+ title (mode k).

Record TimeSignature : Type := mkTimeSignature {
  numerator : Z;
  denominator : Z
}.

(** [TimeSignature.__str__]: [f"{self.numerator}/{self.denominator}"] *)
Definition TimeSignature_str (t : TimeSignature) : string :=
  str_of_int (numerator t) +:+ "/" +:+ str_of_int (denominator t).

Record MusicalParameters : Type := mkMusicalParameters {
  tempo : Z;
  key : MusicalKey;
  time_signature : TimeSignature;
  style : MusicStyle;
  primary_instruments : list InstrumentFamily;
  secondary_instruments : option (list InstrumentFamily);
  energy_level : pyfloat;
  complexity : pyfloat;
  brightness : pyfloat;
  tension : pyfloat;
  duration : pyfloat;
  fade_in : pyfloat;
  fade_out : pyfloat;
  harmonic_richness : pyfloat;
  rhythmic_complexity : pyfloat;
  melodic_range : string
}.

(** The dataclass constructor called with the required fields only:
    every other field takes its declared default. *)
Definition MusicalParameters_defaults (tempo : Z) (key : MusicalKey)
    (time_signature : TimeSignature) (style : MusicStyle)
    (primary_instruments : list InstrumentFamily) : MusicalParameters :=
  mkMusicalParameters tempo key time_signature style primary_instruments None
    lit_0_5 lit_0_5 lit_0_5 lit_0_5
    lit_30_0 lit_2_0 lit_2_0
    lit_0_5 lit_0_5 "medium".

(** Truth value of an optional list: [None] and [[]] are false. *)
Definition truthy {A} (o : option (list A)) : bool :=
  match o with
  | Some (_ :: _) => true
  | _ => false
  end.

(** [MusicalParameters.to_dict] *)
Definition to_dict {T : StrTitle} (self : MusicalParameters)
    : gmap string pyval :=
  <["tempo" := VInt (tempo self)]>
  (<["key" := VStr (MusicalKey_str (key self))]>
  (<["time_signature" := VStr (TimeSignature_str (time_signature self))]>
  (<["style" := VStr (MusicStyle_value (style self))]>
  (<["primary_instruments" :=
       VStrList (map InstrumentFamily_value (primary_instruments self))]>
  (<["secondary_instruments" :=
       VStrList (if truthy (secondary_instruments self)
                 then map InstrumentFamily_value
                        (default [] (secondary_instruments self))
                 else [])]>
  (<["energy_level" := VFloat (energy_level self)]>
  (<["complexity" := VFloat (complexity self)]>
  (<["brightness" := VFloat (brightness self)]>
  (<["tension" := VFloat (tension self)]>
  (<["duration" := VFloat (duration self)]>
  (<["harmonic_richness" := VFloat (harmonic_richness self)]>
  (<["rhythmic_complexity" := VFloat (rhythmic_complexity self)]>
  (<["melodic_range" := VStr (melodic_range self)]> ∅))))))))))))).

(** [MusicalParameters] objects live in a store and are passed around by
    reference: two names may denote the same object. *)
Abbreviation ref := nat.
Abbreviation store := (nat -> MusicalParameters).

(** [obj.duration = v] *)
Definition set_duration (p : MusicalParameters) (v : pyfloat) : MusicalParameters :=
  mkMusicalParameters (tempo p) (key p) (time_signature p) (style p)
    (primary_instruments p) (secondary_instruments p)
    (energy_level p) (complexity p) (brightness p) (tension p)
    v (fade_in p) (fade_out p)
    (harmonic_richness p) (rhythmic_complexity p) (melodic_range p).

(** The field [duration] of the source is [ga_duration] here, the name
    being taken by [MusicalParameters]; [parameters] is a reference. *)
Record GeneratedAudio : Type := mkGeneratedAudio {
  audio_data : list pyfloat;
  sample_rate : Z;
  ga_duration : pyfloat;
  parameters : ref;
  midi_data : option (list Byte.byte);
  generation_time : option pyfloat
}.

(** [GeneratedAudio.num_samples] *)
Definition num_samples (a : GeneratedAudio) : Z := Z.of_nat (length (audio_data a)).

(** [GeneratedAudio.channels]: the buffer is one-dimensional. *)
Definition channels (a : GeneratedAudio) : Z := 1.

Record MockMusicGenerator : Type := mkMockMusicGenerator {
  gen_initialized : bool
}.

(** The table [key_frequencies] of [generate_music]. *)
Definition key_frequencies : gmap string pyfloat :=
  <["C" := FFin (2301321817400279 # 8796093022208)]>
  (<["D" := FFin (5166121353803203 # 17592186044416)]>
  (<["E" := FFin (2899456142910423 # 8796093022208)]>
  (<["F" := FFin (767964891536425 # 2199023255552)]>
  (<["G" := FFin 392]>
  (<["A" := FFin 440]>
  (<["B" := FFin (4344214421808087 # 8796093022208)]> ∅)))))).

(** [MockMusicGenerator.generate_music] *)
Definition generate_music {B : Binary64} {L : Libm} (self : MockMusicGenerator)
    (h : store) (parameters : ref) (w : world)
    : result (GeneratedAudio * world) :=
  w ← time_sleep (fmin lit_2_0 (fmul (duration (h parameters)) lit_0_1)) w;
  let sample_rate := 44100 in
  let duration := fmin (duration (h parameters)) lit_10_0 in
  samples ← int_of_float (fmul (of_int sample_rate) duration);
  let freq := default (FFin 440) (key_frequencies !! tonic (key (h parameters))) in
  t ← linspace (of_int 0) duration samples;
  let audio_data :=
    map (fun ti => fmul lit_0_3
                     (fsin (fmul (fmul (fmul (of_int 2) np_pi) freq) ti))) t in
  mret (mkGeneratedAudio audio_data sample_rate duration parameters
          None (Some (time_time w)), w).

(** [MockMusicGenerator.generate_transition]: the assignment to
    [to_params.duration] is kept in the store whatever happens next. *)
Definition generate_transition {B : Binary64} {L : Libm} (self : MockMusicGenerator)
    (h : store) (from_params to_params : ref)
    (transition_duration : option pyfloat) (w : world)
    : store * result (GeneratedAudio * world) :=
  let transition_duration := default lit_4_0 transition_duration in
  let h := <[to_params := set_duration (h to_params) transition_duration]> h in
  (h, generate_music self h to_params w).

(** [MockMusicGenerator.estimate_generation_time] *)
Definition estimate_generation_time {B : Binary64} (self : MockMusicGenerator)
    (h : store) (parameters : ref) : pyfloat :=
  fmin lit_2_0 (fmul (duration (h parameters)) lit_0_1).

End Audio.
Import Audio.

(** ** simple_demo.py *)

Module Demo.

Record ObjectToMusicDemo : Type := mkObjectToMusicDemo {
  assets_path : string;
  available_objects : list string;
  music_mappings : gmap string (gmap string pyval)
}.

(** [ObjectToMusicDemo._load_available_objects] *)
Definition _load_available_objects : list string :=
  ["plant"; "book"; "cup"; "laptop"; "guitar";
   "phone"; "bottle"; "clock"; "lamp"; "camera"].

(** One entry of the tables below, a dict with these six keys. *)
Definition music_entry (style : string) (tempo : Z) (key : string)
    (instruments : list string) (mood sample_file : string) : gmap string pyval :=
  <["style" := VStr style]>
  (<["tempo" := VInt tempo]>
  (<["key" := VStr key]>
  (<["instruments" := VStrList instruments]>
  (<["mood" := VStr mood]>
  (<["sample_file" := VStr sample_file]> ∅))))).

(** [ObjectToMusicDemo._load_music_mappings] *)
Definition _load_music_mappings : gmap string (gmap string pyval) :=
  <["plant" := music_entry "Ambient" 72 "C Major"
      ["Pad Synth"; "Soft Strings"] "Peaceful, Natural" "plant_ambient.mp3"]>
  (<["book" := music_entry "Neoclassical" 60 "A Minor"
      ["Piano"; "String Quartet"] "Contemplative, Intellectual"
      "book_classical.mp3"]>
  (<["cup" := music_entry "Jazz" 95 "F Major"
      ["Piano"; "Upright Bass"; "Brush Drums"] "Cozy, Intimate" "cup_jazz.mp3"]>
  (<["laptop" := music_entry "Electronic" 128 "D Minor"
      ["Synthesizer"; "Digital Drums"] "Modern, Focused"
      "laptop_electronic.mp3"]>
  (<["guitar" := music_entry "Folk" 85 "G Major"
      ["Acoustic Guitar"; "Light Percussion"] "Warm, Nostalgic"
      "guitar_folk.mp3"]> ∅)))).

(** [ObjectToMusicDemo.__init__] *)
Definition new_demo (demo_assets_path : option string) : ObjectToMusicDemo :=
  mkObjectToMusicDemo (default "demo/assets" demo_assets_path)
    _load_available_objects _load_music_mappings.

(** The dict built in the [else] branch of [generate_music_params]. *)
Definition fallback_params : gmap string pyval :=
  music_entry "Ambient" 80 "C Major" ["Synth Pad"] "Neutral" "default_ambient.mp3".

(** [d[k]]: a missing key raises [KeyError]. *)
Definition getitem (d : gmap string pyval) (k : string) : result pyval :=
  match d !! k with
  | Some v => Ok v
  | None => Raise KeyError
  end.

(** [ObjectToMusicDemo.generate_music_params].  The log line is not
    modelled, the three subscriptions that build it are. *)
Definition generate_music_params (self : ObjectToMusicDemo)
    (detected_object : string) (w : world) : result (gmap string pyval * world) :=
  let params :=
    match music_mappings self !! detected_object with
    | Some entry => entry
    | None => fallback_params
    end in
  w ← time_sleep lit_0_2 w;
  _ ← getitem params "style";
  _ ← getitem params "key";
  _ ← getitem params "tempo";
  mret (params, w).

End Demo.

(** ** The real-time processor *)

Module Processor.

(** Modelled from the spec: [RealTimeMusicProcessorInterface.process_objects]
    is abstract in the sources (its body is [pass]); no implementation of the
    processor is part of the repository.  Section 4.1 of the specification,
    step 1: detections whose confidence is below the threshold are dropped. *)
Definition filter_reliable (threshold : option pyfloat)
    (detections : list DetectedObject) : list DetectedObject :=
  filter (fun d => is_reliable d threshold = true) detections.

(** Modelled from the spec: the order of step 2 of [process_objects], which
    the sources leave abstract.  [dominates a b] when [a] has the higher
    confidence, or the same confidence and the larger bounding-box area. *)
Definition dominates (a b : DetectedObject) : bool :=
  fgt (confidence a) (confidence b)
  || (feq (confidence a) (confidence b)
      && (area (bounding_box b) <? area (bounding_box a))).

(** Modelled from the spec: dominant-object selection, step 2 of
    [process_objects], which the sources leave abstract.  A later detection
    replaces an earlier one only when it dominates it, so that among equals
    the earliest stays. *)
Fixpoint select_dominant (detections : list DetectedObject) : option DetectedObject :=
  match detections with
  | [] => None
  | d :: rest =>
      match select_dominant rest with
      | Some b => if dominates b d then Some b else Some d
      | None => Some d
      end
  end.

End Processor.
Import Demo Processor.

(** * The remaining functions of the sources *)

(** ** More of Python's strings and lists *)

Module PySeq.

(** [s.startswith(t)] *)
Fixpoint startswith (t s : string) : bool :=
  match t, s with
  | EmptyString, _ => true
  | String c t', String d s' => Ascii.eqb c d && startswith t' s'
  | String _ _, EmptyString => false
  end.

(** [s.endswith(t)]: [t] is one of the tails of [s]. *)
Fixpoint endswith (t s : string) : bool :=
  String.eqb t s
  || match s with
     | EmptyString => false
     | String _ s' => endswith t s'
     end.

(** [t in s] for strings: [t] starts one of the tails of [s]. *)
Fixpoint contains (t s : string) : bool :=
  startswith t s
  || match s with
     | EmptyString => false
     | String _ s' => contains t s'
     end.

(** [l[idx]] for a list: a negative index counts from the end, an index
    out of range raises [IndexError]. *)
Definition getitem_list {A} (l : list A) (idx : Z) : result A :=
  let n := Z.of_nat (length l) in
  let i := if idx <? 0 then idx + n else idx in
  if (i <? 0) || (n <=? i) then Raise IndexError
  else match l !! Z.to_nat i with
       | Some a => Ok a
       | None => Raise IndexError
       end.

(** [os.path.join(a, b)] of posixpath, for two components. *)
Definition path_join (a b : string) : string :=
  if startswith "/" b then b
  else if String.eqb a "" || endswith "/" a then a +:+ b
  else a +:+ "/" +:+ b.

End PySeq.
Import PySeq.

(** ** train.py *)

Module Train.

Record AudioDataset : Type := mkAudioDataset {
  files : list string;
  labels : list Z;
  label_map : list (string * Z)
}.

(** The dict [label_map] of [__init__], in insertion order, which is the
    order in which [for key in self.label_map] visits the keys. *)
Definition the_label_map : list (string * Z) :=
  [("clap", 0); ("silence", 1); ("whistle", 2)].

(** The inner loop of [__init__]: the value of the first key, in the order
    of the dict, that occurs in the file name; [None] when the loop ends
    without [break]. *)
Fixpoint first_label (label_map : list (string * Z)) (f : string) : option Z :=
  match label_map with
  | [] => None
  | (key, value) :: rest =>
      if contains key f then Some value else first_label rest f
  end.

(** One turn of the outer loop of [__init__] for the directory entry [f]. *)
Definition init_step (folder : string) (self : AudioDataset) (f : string)
    : AudioDataset :=
  if endswith ".wav" f then
    let path := path_join folder f in
    let files := files self ++ [path] in
    match first_label (label_map self) f with
    | Some value => mkAudioDataset files (labels self ++ [value]) (label_map self)
    | None => mkAudioDataset files (labels self) (label_map self)
    end
  else self.

(** [AudioDataset.__init__]; [listing] is what [os.listdir(folder)]
    returns. *)
Definition __init__ (folder : string) (listing : list string) : AudioDataset :=
  fold_left (init_step folder) listing (mkAudioDataset [] [] the_label_map).

(** [AudioDataset.__len__] *)
Definition __len__ (self : AudioDataset) : Z := Z.of_nat (length (files self)).

(** [AudioDataset.__getitem__].  [load_mfcc path] stands for the two
    librosa calls and the conversion to a tensor, which read the file at
    [path] and may raise. *)
Definition __getitem__ {Tensor : Type} (load_mfcc : string -> result Tensor)
    (self : AudioDataset) (idx : Z) : result (Tensor * Z) :=
  path ← getitem_list (files self) idx;
  mfcc ← load_mfcc path;
  label ← getitem_list (labels self) idx;
  mret (mfcc, label).

End Train.
Import Train.

(** ** simple_demo.py, continued *)

Module DemoRun.

Definition lit_0_85 : pyfloat := FFin (7656119366529843 # 9007199254740992).
Definition lit_0_99 : pyfloat := FFin (4458563631096791 # 4503599627370496).

(** [ObjectToMusicDemo.simulate_object_detection].  Of the log line the
    random draw for the confidence shown is modelled, the text is not. *)
Definition simulate_object_detection {B : Binary64} (self : ObjectToMusicDemo)
    (w : world) : result (string * world) :=
  '(detected_object, w) ← choice (available_objects self) w;
  let '(processing_time, w) := uniform lit_0_1 lit_0_3 w in
  w ← time_sleep processing_time w;
  let '(_, w) := uniform lit_0_85 lit_0_99 w in
  mret (detected_object, w).

(** The style [show_system_info] prints beside an object:
    [self.music_mappings.get(obj, {}).get("style", "Default")]. *)
Definition listed_style (self : ObjectToMusicDemo) (obj : string) : pyval :=
  default (VStr "Default")
    (default ∅ (music_mappings self !! obj) !! "style").

End DemoRun.
Import DemoRun.

(** * Specification predicates and sample data *)

(** The record accepts any four integers. *)
Definition degenerate_box : BoundingBox := mkBoundingBox 0 0 0 (-3).

(** A box drawn by [detect_objects]: both sides are between 50 and 150. *)
Definition drawn_box (d : DetectedObject) : Prop :=
  50 <= width (bounding_box d) <= 150 /\ 50 <= height (bounding_box d) <= 150.

(** The calls that write the [initialized] flag. *)
Inductive lifecycle_call : Type :=
| CallInitialize
| CallCleanup.

Definition apply_call (self : MockVisionProcessor) (c : lifecycle_call)
    : MockVisionProcessor :=
  match c with
  | CallInitialize => fst (initialize self)
  | CallCleanup => cleanup self
  end.

(** The processor after a history of calls on a fresh object. *)
Definition after_calls (history : list lifecycle_call) : MockVisionProcessor :=
  fold_left apply_call history new_processor.

(** Arithmetic without rounding error. *)
Definition exact_arithmetic : Binary64 := {| rnd := fun q => q |}.

(** A libm whose sine is constantly zero: silence. *)
Definition silent_libm : Libm := {| fsin := fun _ => FFin 0 |}.

(** A [title] that knows the ASCII letters only. *)
Definition ascii_only_title : StrTitle := {| title := ascii_title |}.

(** The ASCII letters by their codes: [A-Z] are 65 to 90, [a-z] are 97 to
    122, and the two cases of a letter are 32 apart. *)
Definition upper_code (n : nat) : bool := (65 <=? n)%nat && (n <=? 90)%nat.

Definition lower_code (n : nat) : bool := (97 <=? n)%nat && (n <=? 122)%nat.

Definition letter_before (s : string) (i : nat) : bool :=
  match i with
  | O => false
  | S j =>
      match String.get j s with
      | Some c => upper_code (nat_of_ascii c) || lower_code (nat_of_ascii c)
      | None => false
      end
  end.

(** [titled s r]: [r] is [s] character by character, but for the letters:
    a letter that follows a letter is in lower case, any other letter in
    upper case. *)
Definition titled (s r : string) : Prop :=
  String.length r = String.length s
  /\ forall (i : nat) (c : ascii),
       String.get i s = Some c ->
       exists c' : ascii,
         String.get i r = Some c'
         /\ nat_of_ascii c'
            = let n := nat_of_ascii c in
              if letter_before s i
              then (if upper_code n then n + 32 else n)%nat
              else (if lower_code n then n - 32 else n)%nat.

(** [reads_as s n]: the decimal numeral [s] denotes [n]. *)
Definition reads_as (s : string) (n : Z) : Prop :=
  s <> EmptyString
  /\ NilZero.int_of_string s = Some (Z.to_int n).

(** A world at time zero whose every random draw is [n]. *)
Definition constant_world (n : N) : world := mkWorld 0 (fun _ => n) 0.

(** Every entry of the table has the three keys the log line reads. *)
Definition loggable (params : gmap string pyval) : Prop :=
  is_Some (params !! "style") /\ is_Some (params !! "key")
  /\ is_Some (params !! "tempo").

(** Two parameter sets of the demo and a store that holds them at the
    references 0 and 1. *)
Definition folk_params : MusicalParameters :=
  MusicalParameters_defaults 85 (mkMusicalKey "G" "major")
    (mkTimeSignature 4 4) FOLK [GUITAR; PERCUSSION].

(** [folk_params] with an empty list, not [None], of secondary
    instruments. *)
Definition folk_params_no_secondary : MusicalParameters :=
  mkMusicalParameters 85 (mkMusicalKey "G" "major")
    (mkTimeSignature 4 4) FOLK [GUITAR; PERCUSSION] (Some [])
    lit_0_5 lit_0_5 lit_0_5 lit_0_5 lit_30_0 lit_2_0 lit_2_0
    lit_0_5 lit_0_5 "medium".

Definition ambient_params : MusicalParameters :=
  MusicalParameters_defaults 72 (mkMusicalKey "C" "major")
    (mkTimeSignature 4 4) AMBIENT [SYNTHESIZER; STRINGS].

Definition demo_store : nat -> MusicalParameters :=
  fun r => match r with O => folk_params | _ => ambient_params end.

(** A store whose object lasts 2^-12 seconds: ten samples. *)
Definition short_store : nat -> MusicalParameters :=
  fun _ => set_duration folk_params (FFin (1 # 4096)).

(** The names of the serialized fields. *)
Definition serialized_fields : list string :=
  ["tempo"; "key"; "time_signature"; "style"; "primary_instruments";
   "secondary_instruments"; "energy_level"; "complexity"; "brightness";
   "tension"; "duration"; "harmonic_richness"; "rhythmic_complexity";
   "melodic_range"].

(** The tags of an optional instrument list; no list gives no tags. *)
Definition tags (instruments : option (list InstrumentFamily)) : list string :=
  map InstrumentFamily_value (default [] instruments).

(** No character of the string is the separator of "N/D". *)
Fixpoint no_slash (s : string) : bool :=
  match s with
  | EmptyString => true
  | String c rest => negb (Ascii.eqb c "/") && no_slash rest
  end.

(** [s], found at position [i], is a maximum of the list for the order
    confidence, then area, then earliest position. *)
Definition dominant_at (detections : list DetectedObject) (i : nat)
    (s : DetectedObject) : Prop :=
  detections !! i = Some s
  /\ forall (j : nat) (d : DetectedObject),
       detections !! j = Some d ->
       Fle (confidence d) (confidence s)
       /\ (Feq (confidence d) (confidence s) ->
           area (bounding_box d) <= area (bounding_box s))
       /\ (Feq (confidence d) (confidence s) ->
           area (bounding_box d) = area (bounding_box s) -> (i <= j)%nat).

(** The example of the specification: equal confidence 0.8, areas 100 and
    200: the second detection is selected. *)
Definition classA : DetectedObject :=
  mkDetectedObject "obj_0" "classA" (FFin (3602879701896397 # 4503599627370496))
    (mkBoundingBox 0 0 10 10) (FFin 0) None None.

Definition classB : DetectedObject :=
  mkDetectedObject "obj_1" "classB" (FFin (3602879701896397 # 4503599627370496))
    (mkBoundingBox 0 0 10 20) (FFin 0) None None.

(** The directory entries the outer loop of [AudioDataset.__init__] keeps. *)
Definition wav_entries (listing : list string) : list string :=
  List.filter (endswith ".wav") listing.

(** The label the inner loop of [AudioDataset.__init__] finds for a file
    name, if any. *)
Definition label_of (f : string) : option Z := first_label the_label_map f.

(** A loader that reads no file: the tensor is the path itself. *)
Definition path_loader (path : string) : result string := Ok path.

(** What one turn of the loop of [detect_objects] makes of index [i], on a
    frame of height [H] and width [W], at clock time [t]. *)
Definition detection_of (self : MockVisionProcessor) (W H : Z) (t : Q) (i : Z)
    (d : DetectedObject) : Prop :=
  object_id d = "obj_" +:+ str_of_int i
  /\ class_name d ∈ supported_classes self
  /\ is_nan (confidence d) = false
  /\ 0 <= x (bounding_box d) <= W - 100
  /\ 0 <= y (bounding_box d) <= H - 100
  /\ 50 <= width (bounding_box d) <= 150
  /\ 50 <= height (bounding_box d) <= 150
  /\ timestamp d = FFin t
  /\ semantic_properties d = None
  /\ emotional_associations d = None.

(** [p] with other fade times. *)
Definition set_fades (p : MusicalParameters) (fade_in fade_out : pyfloat)
    : MusicalParameters :=
  mkMusicalParameters (tempo p) (key p) (time_signature p) (style p)
    (primary_instruments p) (secondary_instruments p)
    (energy_level p) (complexity p) (brightness p) (tension p)
    (duration p) fade_in fade_out
    (harmonic_richness p) (rhythmic_complexity p) (melodic_range p).

(** The audio [a] with its reference to the parameters replaced. *)
Definition with_parameters (a : GeneratedAudio) (p : nat) : GeneratedAudio :=
  mkGeneratedAudio (audio_data a) (sample_rate a) (ga_duration a) p
    (midi_data a) (generation_time a).

(** The frequency [generate_music] plays for a tonic. *)
Definition frequency_of (tonic : string) : pyfloat :=
  default (FFin 440) (key_frequencies !! tonic).

(** A rock piece in a key the frequency table does not know, and a jazz
    piece in A, both of 2^-12 seconds. *)
Definition rock_in_h : MusicalParameters :=
  mkMusicalParameters 140 (mkMusicalKey "H" "minor") (mkTimeSignature 4 4)
    ROCK [GUITAR; BASS; PERCUSSION] None
    lit_0_9 lit_0_5 lit_0_5 lit_0_75 (FFin (1 # 4096)) lit_2_0 lit_2_0
    lit_0_5 lit_0_5 "wide".

Definition jazz_in_a : MusicalParameters :=
  mkMusicalParameters 95 (mkMusicalKey "A" "dorian") (mkTimeSignature 3 4)
    JAZZ [PIANO] (Some [BASS])
    lit_0_5 lit_0_9 lit_0_5 lit_0_5 (FFin (1 # 4096)) lit_0_5 lit_0_5
    lit_0_75 lit_0_75 "medium".

(** No character of the string is a space. *)
Fixpoint no_space (s : string) : bool :=
  match s with
  | EmptyString => true
  | String c rest => negb (Ascii.eqb c " ") && no_space rest
  end.

(** The parameters [generate_music_params] selects for an object: its
    entry in the table, or the fallback. *)
Definition selected_params (self : ObjectToMusicDemo) (obj : string)
    : gmap string pyval :=
  match music_mappings self !! obj with
  | Some entry => entry
  | None => fallback_params
  end.

(** The components of a parameter set that its serialized form shows. *)
Definition serialized_alike {T : StrTitle} (p q : MusicalParameters) : Prop :=
  tempo p = tempo q
  /\ MusicalKey_str (key p) = MusicalKey_str (key q)
  /\ time_signature p = time_signature q
  /\ style p = style q
  /\ primary_instruments p = primary_instruments q
  /\ default [] (secondary_instruments p) = default [] (secondary_instruments q)
  /\ energy_level p = energy_level q
  /\ complexity p = complexity q
  /\ brightness p = brightness q
  /\ tension p = tension q
  /\ duration p = duration q
  /\ harmonic_richness p = harmonic_richness q
  /\ rhythmic_complexity p = rhythmic_complexity q
  /\ melodic_range p = melodic_range q.

(** * Properties *)

(** ** The float order *)

Lemma fle_Fle a b : fle a b = true <-> Fle a b.
Proof.
  split.
  - destruct a, b; simpl; intros Hle; try discriminate; try constructor.
    now apply Qle_bool_iff.
  - destruct 1; simpl; trivial. now apply Qle_bool_iff.
Qed.

Lemma flt_Flt a b : flt a b = true <-> Flt a b.
Proof.
  split.
  - destruct a, b; simpl; intros Hlt; try discriminate; try constructor.
    apply negb_true_iff in Hlt. apply Qnot_le_lt. intros Hle.
    apply Qle_bool_iff in Hle. congruence.
  - destruct 1 as [p q Hpq| | |]; simpl; trivial.
    apply negb_true_iff. apply not_true_is_false. intros Hle.
    apply Qle_bool_iff in Hle. now apply Qlt_not_le in Hpq.
Qed.

Lemma feq_Feq a b : feq a b = true <-> Feq a b.
Proof.
  split.
  - destruct a, b; simpl; intros Heq; try discriminate; try constructor.
    now apply Qeq_bool_iff.
  - destruct 1; simpl; trivial. now apply Qeq_bool_iff.
Qed.

Lemma Fle_trans a b c : Fle a b -> Fle b c -> Fle a c.
Proof.
  intros Hab Hbc; inversion Hab; subst; inversion Hbc; subst;
    try constructor.
  eapply Qle_trans; eassumption.
Qed.

Lemma Flt_Fle_trans a b c : Flt a b -> Fle b c -> Flt a c.
Proof.
  intros Hab Hbc; inversion Hab; subst; inversion Hbc; subst;
    try constructor.
  eapply Qlt_le_trans; eassumption.
Qed.

Lemma Flt_irrefl a : ~ Flt a a.
Proof. inversion 1; subst. eapply Qlt_irrefl; eassumption. Qed.

(** A strict comparison and the converse weak one exclude each other. *)
Lemma Flt_not_Fle a b : Flt a b -> ~ Fle b a.
Proof.
  intros Hlt Hle. apply (Flt_irrefl a). eapply Flt_Fle_trans; eassumption.
Qed.

(** Away from NaN the order is total. *)
Lemma Fle_or_Flt a b :
  is_nan a = false -> is_nan b = false -> Fle a b \/ Flt b a.
Proof.
  destruct a as [| |p|], b as [| |q|]; simpl; intros; try discriminate;
    try (left; constructor; fail); try (right; constructor; fail).
  destruct (Qlt_le_dec q p); [right | left]; now constructor.
Qed.

Lemma Fle_antisym a b : Fle a b -> Fle b a -> Feq a b.
Proof.
  intros Hab Hba; inversion Hab; subst; inversion Hba; subst; constructor.
  now apply Qle_antisym.
Qed.

Lemma Feq_Fle a b : Feq a b -> Fle a b.
Proof. destruct 1 as [p q Hpq| |]; constructor. rewrite Hpq. apply Qle_refl. Qed.

Lemma Feq_sym a b : Feq a b -> Feq b a.
Proof. destruct 1; constructor. now symmetry. Qed.

(** Each literal is the binary64 number nearest to its decimal. *)
Lemma literals_nearest :
  Forall (fun '(l, d) =>
            exists q, l = FFin q /\ (Qabs (q - d) <= 1 # 2 ^ 54)%Q)
    [(lit_0_5, 1 # 2); (lit_0_7, 7 # 10); (lit_0_75, 3 # 4); (lit_0_9, 9 # 10)].
Proof.
  repeat constructor; eexists; (split; [reflexivity |]);
    apply Qle_bool_iff; vm_compute; reflexivity.
Qed.

(** ** DetectedObject *)

(** C2.  [is_reliable(threshold)] is true exactly when the confidence is
    greater than or equal to the threshold, and a call without argument is
    a call with threshold 0.7. *)
Theorem is_reliable_iff_confidence_ge (o : DetectedObject) (threshold : pyfloat) :
  (is_reliable o (Some threshold) = true <-> Fle threshold (confidence o))
  /\ (is_reliable o (Some threshold) = false <-> ~ Fle threshold (confidence o))
  /\ is_reliable o None = is_reliable o (Some lit_0_7).
Proof.
  unfold is_reliable, fge; simpl. split; [apply fle_Fle |]. split; [| reflexivity].
  rewrite <- fle_Fle. destruct (fle threshold (confidence o)); split; congruence.
Qed.

(** The four branches of [confidence_level], each with the exact set of
    confidences that reaches it. *)
Lemma confidence_level_cases (o : DetectedObject) :
  (Fle lit_0_9 (confidence o) /\ confidence_level o = VERY_HIGH)
  \/ (Fle lit_0_75 (confidence o) /\ ~ Fle lit_0_9 (confidence o)
      /\ confidence_level o = HIGH)
  \/ (Fle lit_0_5 (confidence o) /\ ~ Fle lit_0_75 (confidence o)
      /\ confidence_level o = MEDIUM)
  \/ (~ Fle lit_0_5 (confidence o) /\ confidence_level o = LOW).
Proof.
  unfold confidence_level, fge.
  destruct (fle lit_0_9 (confidence o)) eqn:E9.
  { left. split; [now apply fle_Fle | reflexivity]. }
  destruct (fle lit_0_75 (confidence o)) eqn:E75.
  { right; left. rewrite <- !fle_Fle. repeat split; congruence. }
  destruct (fle lit_0_5 (confidence o)) eqn:E5.
  { right; right; left. rewrite <- !fle_Fle. repeat split; congruence. }
  right; right; right. rewrite <- !fle_Fle. split; congruence.
Qed.

Lemma lit_0_5_le_0_75 : Fle lit_0_5 lit_0_75.
Proof. apply fle_Fle. reflexivity. Qed.

Lemma lit_0_75_le_0_9 : Fle lit_0_75 lit_0_9.
Proof. apply fle_Fle. reflexivity. Qed.

(** C9.  The level is VERY_HIGH from 0.9 on, HIGH from 0.75 up to 0.9,
    MEDIUM from 0.5 up to 0.75 and LOW below 0.5; and a detection with a
    confidence at least as high has a level at least as high. *)
Theorem confidence_level_thresholds (o : DetectedObject) :
  (Fle lit_0_9 (confidence o) -> confidence_level o = VERY_HIGH)
  /\ (Fle lit_0_75 (confidence o) /\ Flt (confidence o) lit_0_9 ->
      confidence_level o = HIGH)
  /\ (Fle lit_0_5 (confidence o) /\ Flt (confidence o) lit_0_75 ->
      confidence_level o = MEDIUM)
  /\ (Flt (confidence o) lit_0_5 -> confidence_level o = LOW)
  /\ (forall o' : DetectedObject,
        Fle (confidence o) (confidence o') ->
        (level_rank (confidence_level o) <= level_rank (confidence_level o'))%nat).
Proof.
  pose proof lit_0_5_le_0_75 as H57. pose proof lit_0_75_le_0_9 as H79.
  repeat split.
  - intros H9.
    destruct (confidence_level_cases o) as [[_ ->]|[(_&N&_)|[(_&N&_)|[N _]]]];
      trivial; exfalso; apply N; eauto using Fle_trans.
  - intros [H75 L9]. apply Flt_not_Fle in L9.
    destruct (confidence_level_cases o) as [[P _]|[(_&_&->)|[(_&N&_)|[N _]]]];
      trivial; exfalso; eauto using Fle_trans.
  - intros [H5 L75]. apply Flt_not_Fle in L75.
    destruct (confidence_level_cases o) as [[P _]|[(P&_&_)|[(_&_&->)|[N _]]]];
      trivial; exfalso; eauto using Fle_trans.
  - intros L5. apply Flt_not_Fle in L5.
    destruct (confidence_level_cases o) as [[P _]|[(P&_&_)|[(P&_&_)|[_ ->]]]];
      trivial; exfalso; eauto using Fle_trans.
  - intros o' Hle.
    destruct (confidence_level_cases o) as [[P ->]|[(P&_&->)|[(P&_&->)|[_ ->]]]];
      destruct (confidence_level_cases o')
        as [[P' ->]|[(_&N&->)|[(_&N&->)|[N ->]]]];
      simpl; try lia; exfalso; apply N; eauto using Fle_trans.
Qed.

(** The literal 0.9 is not the number 9/10, but no binary64 value lies
    between the two: a binary64 value below 1/2 or from 1 on is on the
    same side of both, and one in between is a multiple of 2^-53.  So for
    a confidence that is a binary64 value, "at least 0.9" reads the same
    with the literal and with the decimal number. *)
Lemma lit_0_9_decimal (c : Q) :
  (c < 1 # 2)%Q \/ (1 <= c)%Q \/ (exists k : Z, c == k # 9007199254740992)%Q ->
  (9 # 10 <= c)%Q <-> Fle lit_0_9 (FFin c).
Proof.
  intros Hgrid. unfold lit_0_9. split.
  - intros Hc. constructor. destruct Hgrid as [Hlow | [Hhigh | [k Hk]]].
    + lra.
    + eapply Qle_trans; [| exact Hhigh]. unfold Qle; simpl; lia.
    + rewrite Hk in *. revert Hc. unfold Qle; simpl. lia.
  - intros Hc. inversion Hc as [? ? Hle| | | | |]; subst.
    eapply Qle_trans; [| exact Hle]. unfold Qle; simpl; lia.
Qed.

Example confidence_level_at_0_9 (o : DetectedObject) :
  confidence o = lit_0_9 -> confidence_level o = VERY_HIGH.
Proof. unfold confidence_level. now intros ->. Qed.

Example confidence_level_at_0_75 (o : DetectedObject) :
  confidence o = lit_0_75 -> confidence_level o = HIGH.
Proof. unfold confidence_level. now intros ->. Qed.

Example confidence_level_of_nan (o : DetectedObject) :
  confidence o = FNaN -> confidence_level o = LOW.
Proof. unfold confidence_level. now intros ->. Qed.

(** ** BoundingBox *)

(** C8, as stated, fails: a BoundingBox is built from any integers, and
    nothing checks that width and height are positive. *)
Lemma bounding_box_invariant_not_enforced :
  ~ (forall b : BoundingBox,
       0 < width b /\ 0 < height b /\ area b = width b * height b).
Proof.
  intros Hall. destruct (Hall degenerate_box) as [Hw _]. simpl in Hw. lia.
Qed.

Lemma randint_range a b w v w' :
  randint a b w = Ok (v, w') -> a <= v <= b.
Proof.
  unfold randint, next_draw.
  destruct (Z.ltb_spec b a) as [|Hab]; [discriminate |].
  intros Heq; inversion Heq; subst.
  pose proof (Z.mod_pos_bound (Z.of_N (draws w (cursor w))) (b - a + 1)).
  lia.
Qed.

Section DetectObjects.
Context `{B : Binary64}.

Lemma detect_one_box self frame i w d w' :
  detect_one self frame i w = Ok (d, w') -> drawn_box d.
Proof.
  unfold detect_one, mbind, result_bind, mret, result_ret.
  destruct (choice _ w) as [[cls w1]|]; [| discriminate].
  destruct (uniform lit_0_6 lit_0_95 w1) as [conf w2].
  destruct (shape_at frame 1) as [s1|]; [| discriminate].
  destruct (randint 0 (s1 - 100) w2) as [[bx w3]|]; [| discriminate].
  destruct (shape_at frame 0) as [s0|]; [| discriminate].
  destruct (randint 0 (s0 - 100) w3) as [[by_ w4]|]; [| discriminate].
  destruct (randint 50 150 w4) as [[bw w5]|] eqn:Ew; [| discriminate].
  destruct (randint 50 150 w5) as [[bh w6]|] eqn:Eh; [| discriminate].
  intros Heq; inversion Heq; subst.
  split; simpl; eapply randint_range; eassumption.
Qed.

Lemma detect_loop_boxes self frame n : forall i acc w ds w',
  Forall drawn_box acc ->
  detect_loop self frame n i acc w = Ok (ds, w') ->
  Forall drawn_box ds.
Proof.
  induction n as [|n IH]; simpl; intros i acc w ds w' Hacc.
  - intros Heq; inversion Heq; now subst.
  - unfold mbind, result_bind.
    destruct (detect_one self frame i w) as [[d w1]|] eqn:E1; [| discriminate].
    apply IH. apply Forall_app. split; [assumption |].
    constructor; [| constructor]. eapply detect_one_box; eassumption.
Qed.

Lemma detect_objects_boxes self frame metadata w ds w' :
  detect_objects self frame metadata w = Ok (ds, w') -> Forall drawn_box ds.
Proof.
  unfold detect_objects. destruct (initialized self); cbn [negb].
  - unfold mbind, result_bind.
    destruct (randint 1 3 w) as [[n w1]|]; [| discriminate].
    apply detect_loop_boxes. constructor.
  - intros Heq; inversion Heq. constructor.
Qed.

(** Before [initialize], and again after [cleanup], the flag is off and
    [detect_objects] takes its first branch. *)
Lemma detect_objects_flag_off self frame metadata w :
  initialized self = false ->
  detect_objects self frame metadata w = Ok ([], w).
Proof. unfold detect_objects. now intros ->. Qed.

End DetectObjects.

(** C8, amended.  The area of every BoundingBox is width times height,
    and it is positive when width and height are; the boxes that
    [MockVisionProcessor.detect_objects] returns have width and height
    between 50 and 150, hence positive. *)
Theorem bounding_box_area_and_drawn_boxes :
  (forall b : BoundingBox,
     area b = width b * height b
     /\ (0 < width b /\ 0 < height b -> 0 < area b))
  /\ (forall (B : Binary64) self frame metadata w ds w',
        detect_objects self frame metadata w = Ok (ds, w') ->
        forall d, d ∈ ds ->
          0 < width (bounding_box d) /\ 0 < height (bounding_box d)
          /\ 0 < area (bounding_box d)).
Proof.
  split.
  - intros b. unfold area. split; [reflexivity | nia].
  - intros B self frame metadata w ds w' Hrun d Hd.
    apply detect_objects_boxes in Hrun.
    rewrite list.Forall_forall in Hrun. destruct (Hrun d Hd) as [Hw Hh].
    unfold area. repeat split; nia.
Qed.

(** ** MockVisionProcessor *)

Lemma flag_stays_off (history : list lifecycle_call) :
  forall self : MockVisionProcessor,
    initialized self = false ->
    Forall (fun c => c <> CallInitialize) history ->
    initialized (fold_left apply_call history self) = false.
Proof.
  induction history as [|c history IH]; simpl; intros self Hself Hall.
  - exact Hself.
  - inversion Hall as [|? ? Hc Hrest]; subst. apply IH; [| assumption].
    destruct c; [congruence | reflexivity].
Qed.

Lemma never_initialized_flag (history : list lifecycle_call) :
  Forall (fun c => c <> CallInitialize) history ->
  initialized (after_calls history) = false.
Proof. apply flag_stays_off. reflexivity. Qed.

(** C10.  On a processor on which [initialize] was never called,
    [detect_objects] returns the empty list for every frame, raises
    nothing and consumes no random draw. *)
Theorem detect_objects_before_initialize (B : Binary64)
    (history : list lifecycle_call) (frame : ndarray)
    (metadata : option FrameMetadata) (w : world) :
  Forall (fun c => c <> CallInitialize) history ->
  detect_objects (after_calls history) frame metadata w = Ok ([], w).
Proof.
  intros Hnever. apply detect_objects_flag_off.
  now apply never_initialized_flag.
Qed.

(** Exact arithmetic is monotone and leaves every integer alone. *)
Lemma exact_arithmetic_laws : Binary64Laws exact_arithmetic.
Proof. split; simpl; [trivial | reflexivity]. Qed.

Lemma detect_objects_before_initialize_witness :
  Forall (fun c => c <> CallInitialize) [CallCleanup; CallCleanup]
  /\ detect_objects (B := exact_arithmetic) (after_calls [CallCleanup; CallCleanup])
       (mkNdarray [480; 640; 3]) None (constant_world 7)
     = Ok ([], constant_world 7).
Proof.
  assert (Hnever : Forall (fun c => c <> CallInitialize) [CallCleanup; CallCleanup])
    by (repeat constructor; discriminate).
  split; [exact Hnever |].
  exact (detect_objects_before_initialize exact_arithmetic
           [CallCleanup; CallCleanup] (mkNdarray [480; 640; 3]) None
           (constant_world 7) Hnever).
Defined.

(** After [initialize] the same call does detect: here one object. *)
Example detect_objects_after_initialize :
  exists d w',
    detect_objects (B := exact_arithmetic) (after_calls [CallInitialize])
      (mkNdarray [480; 640; 3]) None (constant_world 0) = Ok ([d], w')
    /\ class_name d = "plant" /\ object_id d = "obj_0"
    /\ bounding_box d = mkBoundingBox 0 0 50 50.
Proof. do 2 eexists. split; [vm_compute; reflexivity |]. now repeat split. Qed.

(** On a frame narrower than 100 pixels an initialized processor raises. *)
Example detect_objects_small_frame :
  detect_objects (B := exact_arithmetic) (after_calls [CallInitialize])
    (mkNdarray [480; 64; 3]) None (constant_world 0) = Raise ValueError.
Proof. vm_compute. reflexivity. Qed.

(** ** ObjectToMusicDemo *)

Lemma music_entry_loggable style tempo key instruments mood sample_file :
  loggable (music_entry style tempo key instruments mood sample_file).
Proof. unfold loggable, music_entry. repeat split; eexists; reflexivity. Qed.

Lemma load_music_mappings_loggable :
  map_Forall (fun _ entry => loggable entry) _load_music_mappings.
Proof.
  unfold _load_music_mappings.
  repeat (apply map_Forall_insert_2; [apply music_entry_loggable |]).
  apply map_Forall_empty.
Qed.

Lemma generate_music_params_returns self name params w :
  loggable params ->
  match music_mappings self !! name with
  | Some entry => entry
  | None => fallback_params
  end = params ->
  generate_music_params self name w
  = Ok (params, mkWorld (clock w + (3602879701896397 # 18014398509481984))%Q
                  (draws w) (cursor w)).
Proof.
  intros ([s Hs] & [k Hk] & [t Ht]) Hsel.
  unfold generate_music_params. rewrite Hsel.
  unfold getitem. cbn. now rewrite Hs, Hk, Ht.
Qed.

(** C7.  For a name without entry in the table the mapping step returns
    the fallback parameters (style Ambient, tempo 80, key C Major) and
    raises nothing; for a name with an entry it returns that entry. *)
Theorem generate_music_params_lookup_or_fallback
    (self : ObjectToMusicDemo) (detected_object : string) (w : world) :
  map_Forall (fun _ entry => loggable entry) (music_mappings self) ->
  (music_mappings self !! detected_object = None ->
   exists w',
     generate_music_params self detected_object w = Ok (fallback_params, w')
     /\ fallback_params !! "style" = Some (VStr "Ambient")
     /\ fallback_params !! "tempo" = Some (VInt 80)
     /\ fallback_params !! "key" = Some (VStr "C Major"))
  /\ (forall entry,
        music_mappings self !! detected_object = Some entry ->
        exists w', generate_music_params self detected_object w = Ok (entry, w')).
Proof.
  intros Hwf. split.
  - intros Hnone. eexists. split; [| now repeat split].
    apply generate_music_params_returns;
      [apply music_entry_loggable | now rewrite Hnone].
  - intros entry Hsome. eexists.
    apply generate_music_params_returns; [| now rewrite Hsome].
    exact (Hwf _ _ Hsome).
Qed.

Lemma generate_music_params_lookup_or_fallback_witness :
  map_Forall (fun _ entry => loggable entry) (music_mappings (new_demo None))
  /\ (exists w',
        generate_music_params (new_demo None) "umbrella" (constant_world 0)
        = Ok (fallback_params, w'))
  /\ (exists w',
        generate_music_params (new_demo None) "guitar" (constant_world 0)
        = Ok (music_entry "Folk" 85 "G Major"
                ["Acoustic Guitar"; "Light Percussion"] "Warm, Nostalgic"
                "guitar_folk.mp3", w')).
Proof.
  pose proof (generate_music_params_lookup_or_fallback (new_demo None) "umbrella"
                (constant_world 0) load_music_mappings_loggable) as [Hmiss _].
  pose proof (generate_music_params_lookup_or_fallback (new_demo None) "guitar"
                (constant_world 0) load_music_mappings_loggable) as [_ Hhit].
  split; [exact load_music_mappings_loggable |]. split.
  - destruct (Hmiss eq_refl) as (w' & Hrun & _). now exists w'.
  - apply Hhit. reflexivity.
Defined.

(** ** MockMusicGenerator.generate_transition *)

(** C5, as stated, fails: [generate_transition] assigns to the duration of
    the object [to_params] refers to.  Here its 30 seconds become 4. *)
Lemma generate_transition_mutates_to_params :
  let h := demo_store in
  let h' := fst (generate_transition (B := exact_arithmetic) (L := silent_libm)
                   (mkMockMusicGenerator true) h 0%nat 1%nat None
                   (constant_world 0)) in
  duration (h 1%nat) = lit_30_0 /\ duration (h' 1%nat) = lit_4_0
  /\ h' 1%nat <> h 1%nat.
Proof. repeat split. discriminate. Qed.

(** With both arguments the same object, the first one changes as well. *)
Example generate_transition_aliased :
  let h' := fst (generate_transition (B := exact_arithmetic) (L := silent_libm)
                   (mkMockMusicGenerator true) demo_store 0%nat 0%nat None
                   (constant_world 0)) in
  duration (h' 0%nat) = lit_4_0.
Proof. reflexivity. Qed.

Lemma set_duration_only p v :
  let p' := set_duration p v in
  duration p' = v
  /\ tempo p' = tempo p /\ key p' = key p
  /\ time_signature p' = time_signature p /\ style p' = style p
  /\ primary_instruments p' = primary_instruments p
  /\ secondary_instruments p' = secondary_instruments p
  /\ energy_level p' = energy_level p /\ complexity p' = complexity p
  /\ brightness p' = brightness p /\ tension p' = tension p
  /\ fade_in p' = fade_in p /\ fade_out p' = fade_out p
  /\ harmonic_richness p' = harmonic_richness p
  /\ rhythmic_complexity p' = rhythmic_complexity p
  /\ melodic_range p' = melodic_range p.
Proof. simpl. tauto. Qed.

(** C5, amended.  [generate_transition] changes one field of one object:
    the duration of the object [to_params] refers to becomes the
    transition duration (4.0 when left out).  Every other field of that
    object and every other object of the store, [from_params] included
    when it is a different object, are as before; and the generated
    audio, if any, refers to [to_params]. *)
Theorem generate_transition_frame (B : Binary64) (L : Libm)
    (self : MockMusicGenerator) (h : nat -> MusicalParameters)
    (from_params to_params : nat) (transition_duration : option pyfloat)
    (w : world) :
  let out := generate_transition self h from_params to_params
               transition_duration w in
  let h' := fst out in
  (forall r, r <> to_params -> h' r = h r)
  /\ h' to_params
     = set_duration (h to_params) (default lit_4_0 transition_duration)
  /\ duration (h' to_params) = default lit_4_0 transition_duration
  /\ fade_in (h' to_params) = fade_in (h to_params)
  /\ fade_out (h' to_params) = fade_out (h to_params)
  /\ set_duration (h' to_params) (duration (h to_params)) = h to_params
  /\ (forall a w', snd out = Ok (a, w') -> parameters a = to_params).
Proof.
  unfold generate_transition; simpl. repeat split.
  - intros r Hr. now apply fn_lookup_insert_ne.
  - apply fn_lookup_insert.
  - now rewrite fn_lookup_insert.
  - now rewrite fn_lookup_insert.
  - now rewrite fn_lookup_insert.
  - rewrite fn_lookup_insert. now destruct (h to_params).
  - intros a w'. unfold generate_music, mbind, result_bind, mret, result_ret.
    destruct (time_sleep _ w); [| discriminate].
    destruct (int_of_float _); [| discriminate].
    destruct (linspace _ _ _); [| discriminate].
    intros Heq; inversion Heq; reflexivity.
Qed.

(** ** MockMusicGenerator.generate_music *)

Lemma truncate_inject_Z (k : Z) : truncate (inject_Z k) = k.
Proof. unfold truncate; simpl. apply Z.quot_1_r. Qed.

Lemma truncate_mono (p q : Q) : (p <= q)%Q -> truncate p <= truncate q.
Proof.
  destruct p as [a b], q as [c d]. unfold truncate, Qle; simpl. intros Hle.
  rewrite <- (Z.quot_mul_cancel_r a (Z.pos b) (Z.pos d)) by lia.
  rewrite <- (Z.quot_mul_cancel_r c (Z.pos d) (Z.pos b)) by lia.
  rewrite (Z.mul_comm (Z.pos d) (Z.pos b)).
  apply Z.quot_le_mono; lia.
Qed.

Section Rounding.
Context (B : Binary64) (Laws : Binary64Laws B).

Lemma rnd_le_int (x : Q) (k : Z) :
  Z.abs k <= 2 ^ 53 -> (x <= inject_Z k)%Q -> (rnd x <= inject_Z k)%Q.
Proof.
  intros Hk Hx. rewrite <- (rnd_int k Hk). now apply rnd_mono.
Qed.

Lemma rnd_ge_int (x : Q) (k : Z) :
  Z.abs k <= 2 ^ 53 -> (inject_Z k <= x)%Q -> (inject_Z k <= rnd x)%Q.
Proof.
  intros Hk Hx. rewrite <- (rnd_int k Hk). now apply rnd_mono.
Qed.

(** Rounding a product and truncating it moves it by at most one, for a
    product that is at most [bound] and truncates to a sample count. *)
Lemma truncate_rnd_within_one (bound : Z) (x : Q) :
  0 <= bound < 2 ^ 53 ->
  (x <= inject_Z bound)%Q ->
  0 <= truncate (rnd x) ->
  (inject_Z (truncate (rnd x)) - 1 <= x
   /\ x <= inject_Z (truncate (rnd x)) + 1)%Q.
Proof.
  intros Hbound Hx Hs. set (s := truncate (rnd x)) in *.
  assert (Hsb : s <= bound).
  { rewrite <- (truncate_inject_Z bound). apply truncate_mono.
    apply rnd_le_int; [lia | assumption]. }
  split.
  - destruct (Qlt_le_dec x (inject_Z (s - 1))) as [Hlt | Hge].
    + exfalso. apply Qlt_le_weak in Hlt.
      apply rnd_le_int in Hlt; [| lia].
      apply truncate_mono in Hlt. rewrite truncate_inject_Z in Hlt.
      fold s in Hlt. lia.
    + unfold Z.sub in Hge. rewrite inject_Z_plus in Hge.
      change (inject_Z (- (1))) with (- (1))%Q in Hge. lra.
  - destruct (Qlt_le_dec (inject_Z (s + 1)) x) as [Hlt | Hge].
    + exfalso. apply Qlt_le_weak in Hlt.
      apply rnd_ge_int in Hlt; [| lia].
      apply truncate_mono in Hlt. rewrite truncate_inject_Z in Hlt.
      fold s in Hlt. lia.
    + rewrite inject_Z_plus in Hge.
      change (inject_Z 1) with 1%Q in Hge. lra.
Qed.

End Rounding.

Lemma length_range (n : Z) : Z.of_nat (length (range n)) = Z.max 0 n.
Proof. unfold range. rewrite length_map, length_seq. lia. Qed.

Lemma linspace_length (B : Binary64) start stop num t :
  linspace start stop num = Ok t -> 0 <= num /\ Z.of_nat (length t) = num.
Proof.
  unfold linspace. destruct (Z.ltb_spec num 0) as [|Hnum]; [discriminate |].
  intros Heq; inversion Heq; subst. rewrite length_map, length_range. lia.
Qed.

(** [min(x, 10.0)], when finite, is at most 10. *)
Lemma fmin_10_upper (a : pyfloat) (d : Q) :
  fmin a lit_10_0 = FFin d -> (d <= 10)%Q.
Proof.
  unfold fmin, lit_10_0. destruct (flt (FFin 10) a) eqn:E.
  - intros Heq; inversion Heq. apply Qle_refl.
  - intros ->. simpl in E. apply negb_false_iff in E.
    now apply Qle_bool_iff.
Qed.

(** What a successful run of [generate_music] computed. *)
Lemma generate_music_inversion (B : Binary64) (L : Libm) self h p w a w' :
  generate_music self h p w = Ok (a, w') ->
  exists d : Q,
    fmin (duration (h p)) lit_10_0 = FFin d
    /\ ga_duration a = FFin d
    /\ sample_rate a = 44100
    /\ parameters a = p
    /\ num_samples a = truncate (rnd (inject_Z 44100 * d))
    /\ 0 <= num_samples a.
Proof.
  unfold generate_music, mbind, result_bind, mret, result_ret.
  destruct (time_sleep _ w) as [w1|]; [| discriminate].
  destruct (fmin (duration (h p)) lit_10_0) as [| |d|] eqn:Ed;
    try discriminate.
  cbn [fmul of_int int_of_float].
  destruct (linspace _ _ _) as [t|] eqn:Et; [| discriminate].
  intros Heq; inversion Heq; subst; clear Heq.
  apply linspace_length in Et. destruct Et as [Hnum Hlen].
  exists d. unfold num_samples; simpl. rewrite length_map.
  repeat split; trivial; lia.
Qed.

(** The duration recorded in a GeneratedAudio that [generate_music]
    returns is finite and differs from the number of samples divided by
    the sample rate by at most one sample period: with truncation of
    [sample_rate * duration] and rounding of the product, the buffer is
    at most one sample short or long. *)
Lemma generated_audio_duration_bound (B : Binary64) (L : Libm)
    (self : MockMusicGenerator) (h : nat -> MusicalParameters)
    (p : nat) (w w' : world) (a : GeneratedAudio) :
  Binary64Laws B ->
  generate_music self h p w = Ok (a, w') ->
  exists d : Q,
    ga_duration a = FFin d
    /\ (Qabs (d - inject_Z (num_samples a) / inject_Z (sample_rate a))
        <= 1 / inject_Z (sample_rate a))%Q.
Proof.
  intros Laws Hrun.
  apply generate_music_inversion in Hrun.
  destruct Hrun as (d & Hmin & Hdur & Hrate & _ & Hnum & Hpos).
  exists d. split; [assumption |]. rewrite Hrate.
  apply fmin_10_upper in Hmin.
  assert (Hx : (inject_Z 44100 * d <= inject_Z 441000)%Q).
  { change (inject_Z 44100) with 44100%Q.
    change (inject_Z 441000) with 441000%Q. lra. }
  rewrite Hnum in Hpos.
  destruct (truncate_rnd_within_one B Laws 441000 _ ltac:(lia) Hx Hpos)
    as [Hlo Hhi].
  rewrite <- Hnum in Hlo, Hhi.
  change (inject_Z 44100) with 44100%Q in *.
  apply Qabs_Qle_condition. unfold Qdiv.
  change (/ 44100)%Q with (1 # 44100)%Q.
  split; lra.
Qed.

(** C6.  For every GeneratedAudio the generator produces, by
    [generate_music] or through it by [generate_transition], whatever the
    parameters, the duration field equals the length of the sample buffer
    divided by the sample rate within one sample period. *)
Theorem generated_audio_duration_consistent (B : Binary64) (L : Libm)
    (self : MockMusicGenerator) (h : nat -> MusicalParameters)
    (p from_params to_params : nat) (transition_duration : option pyfloat)
    (w w' : world) (a : GeneratedAudio) :
  Binary64Laws B ->
  generate_music self h p w = Ok (a, w')
  \/ snd (generate_transition self h from_params to_params
            transition_duration w) = Ok (a, w') ->
  exists d : Q,
    ga_duration a = FFin d
    /\ (Qabs (d - inject_Z (num_samples a) / inject_Z (sample_rate a))
        <= 1 / inject_Z (sample_rate a))%Q.
Proof.
  intros Laws [Hrun | Hrun].
  - eapply generated_audio_duration_bound; eassumption.
  - unfold generate_transition in Hrun; simpl in Hrun.
    eapply generated_audio_duration_bound; eassumption.
Qed.

(** A sleep of at most nine billion seconds that is not negative goes
    ahead. *)
Lemma time_sleep_advances (q : Q) (w : world) :
  (0 <= q)%Q -> (q <= 9000000000)%Q ->
  time_sleep (FFin q) w = Ok (mkWorld (clock w + q) (draws w) (cursor w)).
Proof.
  intros H0 Hmax. unfold time_sleep, sleep_in_range, sleep_wraps.
  assert (Qle_bool (- (9223372036854776832)) (q * 1000000000) = true) as ->
    by (apply Qle_bool_iff; lra).
  assert (Qle_bool (q * 1000000000) 9223372036854776832 = true) as ->
    by (apply Qle_bool_iff; lra).
  assert (Qle_bool 9223372036854775296 (q * 1000000000) = false) as ->
    by (apply not_true_is_false; rewrite Qle_bool_iff; lra).
  assert (Qle_bool 0 q = true) as -> by now apply Qle_bool_iff.
  assert (Qle_bool 9223372036 q = false) as ->
    by (apply not_true_is_false; rewrite Qle_bool_iff; lra).
  reflexivity.
Qed.

(** A sleep that returned was a finite length, not negative, and moved
    the clock by that length and nothing else. *)
Lemma time_sleep_inversion (secs : pyfloat) (w w' : world) :
  time_sleep secs w = Ok w' ->
  exists q : Q,
    secs = FFin q /\ (0 <= q)%Q
    /\ w' = mkWorld (clock w + q) (draws w) (cursor w).
Proof.
  unfold time_sleep. destruct secs as [| |q|]; try discriminate.
  destruct (negb (sleep_in_range q)); [discriminate |].
  destruct (sleep_wraps q); [discriminate |].
  destruct (Qle_bool 0 q) eqn:E0; [| discriminate].
  destruct (Qle_bool 9223372036 q); [discriminate |].
  intros Heq; inversion Heq; subst. exists q.
  apply Qle_bool_iff in E0. auto.
Qed.

(** The edges of [time.sleep], at the doubles next to them: -1e10 and
    -1e9; 9223372036.854776, the double nearest to 2^63 nanoseconds, with
    its neighbours 9223372036.854778 and 9223372036.854774, and their
    opposites. *)
Example time_sleep_edges (w : world) :
  time_sleep FNaN w = Raise ValueError
  /\ time_sleep FNegInf w = Raise OverflowError
  /\ time_sleep FPosInf w = Raise OverflowError
  /\ time_sleep (FFin (- (10000000000))) w = Raise OverflowError
  /\ time_sleep (FFin (- (1000000000))) w = Raise ValueError
  /\ time_sleep (FFin (- (2417851639229259 # 262144))) w = Raise OverflowError
  /\ time_sleep (FFin (- (4835703278458517 # 524288))) w = Raise ValueError
  /\ time_sleep (FFin (1208925819614629 # 131072)) w = Raise OSError
  /\ time_sleep (FFin (4835703278458517 # 524288)) w = Raise ValueError
  /\ time_sleep (FFin (2417851639229259 # 262144)) w = Raise OverflowError.
Proof. repeat split. Qed.

(** [generate_music] does return for every finite duration that is not
    negative (and raises for the negative ones, in [time.sleep]). *)
Lemma generate_music_succeeds (B : Binary64) (L : Libm) self h p w (x : Q) :
  Binary64Laws B ->
  duration (h p) = FFin x -> (0 <= x)%Q ->
  exists a w', generate_music self h p w = Ok (a, w').
Proof.
  intros Laws Hd Hx.
  assert (Hr0 : forall y : Q, (0 <= y)%Q -> (0 <= rnd y)%Q).
  { intros y Hy. change 0%Q with (inject_Z 0).
    apply rnd_ge_int; [assumption | simpl; lia | assumption]. }
  unfold generate_music, mbind, result_bind, mret, result_ret. rewrite Hd.
  assert (Hsleep : exists w1,
             time_sleep (fmin lit_2_0 (fmul (FFin x) lit_0_1)) w = Ok w1).
  { unfold fmin. destruct (flt _ lit_2_0) eqn:E2.
    - cbn [fmul lit_0_1] in *. eexists. apply time_sleep_advances.
      + apply Hr0. apply Qmult_le_0_compat; [assumption |].
        now apply Qle_bool_iff.
      + apply flt_Flt in E2. inversion E2; subst. lra.
    - eexists. apply time_sleep_advances; apply Qle_bool_iff; reflexivity. }
  destruct Hsleep as [w1 ->].
  assert (Hmin : exists d, fmin (FFin x) lit_10_0 = FFin d /\ (0 <= d)%Q).
  { unfold fmin. destruct (flt lit_10_0 (FFin x)); eexists; split;
      try reflexivity; [now apply Qle_bool_iff | assumption]. }
  destruct Hmin as (d & -> & Hd0).
  cbn [fmul of_int int_of_float].
  assert (Hs : 0 <= truncate (rnd (inject_Z 44100 * d))).
  { rewrite <- (truncate_inject_Z 0). apply truncate_mono. apply Hr0.
    apply Qmult_le_0_compat; [now apply Qle_bool_iff | assumption]. }
  unfold linspace. destruct (Z.ltb_spec (truncate (rnd (inject_Z 44100 * d))) 0);
    [lia | eauto].
Qed.

(** A negative duration makes [time.sleep] raise. *)
Example generate_music_negative_duration :
  generate_music (B := exact_arithmetic) (L := silent_libm)
    (mkMockMusicGenerator true)
    (fun _ => set_duration folk_params (FFin (-1))) 0%nat (constant_world 0)
  = Raise ValueError.
Proof. reflexivity. Qed.

(** The default 30 seconds are cut to 10: 441000 samples at 44100 Hz. *)
Example generate_music_default_duration a w' :
  generate_music (B := exact_arithmetic) (L := silent_libm)
    (mkMockMusicGenerator true) demo_store 0%nat (constant_world 0)
  = Ok (a, w') ->
  ga_duration a = lit_10_0 /\ num_samples a = 441000.
Proof.
  intros Hrun. apply generate_music_inversion in Hrun.
  destruct Hrun as (d & Hmin & Hdur & _ & _ & Hnum & _).
  vm_compute in Hmin. inversion Hmin; subst d.
  split; [assumption |]. rewrite Hnum. reflexivity.
Qed.

Lemma generated_audio_duration_consistent_witness :
  Binary64Laws exact_arithmetic
  /\ exists a w',
       generate_music (B := exact_arithmetic) (L := silent_libm)
         (mkMockMusicGenerator true) short_store 0%nat (constant_world 0)
       = Ok (a, w')
       /\ num_samples a = 10
       /\ exists d : Q,
            ga_duration a = FFin d
            /\ (Qabs (d - inject_Z (num_samples a) / inject_Z (sample_rate a))
                <= 1 / inject_Z (sample_rate a))%Q.
Proof.
  split; [exact exact_arithmetic_laws |].
  eexists; eexists.
  split; [vm_compute; reflexivity |].
  split; [reflexivity |].
  eapply (generated_audio_duration_consistent exact_arithmetic silent_libm
            (mkMockMusicGenerator true) short_store 0%nat 0%nat 0%nat None
            (constant_world 0)).
  - exact exact_arithmetic_laws.
  - left. vm_compute. reflexivity.
Defined.

(** The audio of a transition is an audio of [generate_music]: it lasts
    the transition duration, capped at ten seconds, within one sample. *)
Corollary generate_transition_audio_consistent (B : Binary64) (L : Libm)
    self h from_params to_params transition_duration w a w' :
  Binary64Laws B ->
  snd (generate_transition self h from_params to_params transition_duration w)
  = Ok (a, w') ->
  exists d : Q,
    ga_duration a = fmin (default lit_4_0 transition_duration) lit_10_0
    /\ ga_duration a = FFin d
    /\ (Qabs (d - inject_Z (num_samples a) / 44100) <= 1 / 44100)%Q.
Proof.
  unfold generate_transition; simpl. intros Laws Hrun.
  pose proof Hrun as Hinv. apply generate_music_inversion in Hinv.
  destruct Hinv as (d0 & Hmin & Hdur & Hrate & _).
  rewrite fn_lookup_insert in Hmin. simpl in Hmin.
  destruct (generated_audio_duration_bound B L _ _ _ _ _ _ Laws Hrun)
    as (d & Hd & Hbound).
  exists d. rewrite Hrate in Hbound. split; [congruence |]. now split.
Qed.

(** ** MusicalParameters.to_dict *)

Lemma secondary_tags (self : MusicalParameters) :
  (if truthy (secondary_instruments self)
   then map InstrumentFamily_value (default [] (secondary_instruments self))
   else [])
  = tags (secondary_instruments self).
Proof. unfold tags. now destruct (secondary_instruments self) as [[|i l]|]. Qed.

(** The value stored under each field name. *)
Lemma to_dict_lookups {T : StrTitle} (self : MusicalParameters) :
  to_dict self !! "tempo" = Some (VInt (tempo self))
  /\ to_dict self !! "key"
     = Some (VStr (tonic (key self) +:+ " " +:+ title (mode (key self))))
  /\ to_dict self !! "time_signature"
     = Some (VStr (str_of_int (numerator (time_signature self)) +:+ "/"
                   +:+ str_of_int (denominator (time_signature self))))
  /\ to_dict self !! "style" = Some (VStr (MusicStyle_value (style self)))
  /\ to_dict self !! "primary_instruments"
     = Some (VStrList (map InstrumentFamily_value (primary_instruments self)))
  /\ to_dict self !! "secondary_instruments"
     = Some (VStrList (tags (secondary_instruments self)))
  /\ to_dict self !! "energy_level" = Some (VFloat (energy_level self))
  /\ to_dict self !! "complexity" = Some (VFloat (complexity self))
  /\ to_dict self !! "brightness" = Some (VFloat (brightness self))
  /\ to_dict self !! "tension" = Some (VFloat (tension self))
  /\ to_dict self !! "duration" = Some (VFloat (duration self))
  /\ to_dict self !! "harmonic_richness" = Some (VFloat (harmonic_richness self))
  /\ to_dict self !! "rhythmic_complexity"
     = Some (VFloat (rhythmic_complexity self))
  /\ to_dict self !! "melodic_range" = Some (VStr (melodic_range self)).
Proof.
  unfold to_dict. rewrite secondary_tags. repeat split; reflexivity.
Qed.

(** *** Title case, letter by letter *)

Lemma ascii_only_title_laws : StrTitleLaws ascii_only_title.
Proof. constructor. reflexivity. Qed.

Lemma title_from_cons (b : bool) (c : ascii) (rest : string) :
  title_from b (String c rest)
  = String (if is_lower c then (if b then c else to_upper c)
            else if is_upper c then (if b then to_lower c else c)
            else c)
      (title_from (is_lower c || is_upper c) rest).
Proof. simpl. destruct (is_lower c), (is_upper c); reflexivity. Qed.

Lemma title_from_length (s : string) :
  forall b : bool, String.length (title_from b s) = String.length s.
Proof.
  induction s as [|c rest IH]; intros b; [reflexivity |].
  rewrite title_from_cons. simpl. now rewrite IH.
Qed.

(** The code of the character that the loop writes for [c]. *)
Lemma title_from_code (b : bool) (c : ascii) :
  nat_of_ascii (if is_lower c then (if b then c else to_upper c)
                else if is_upper c then (if b then to_lower c else c)
                else c)
  = let n := nat_of_ascii c in
    if b then (if upper_code n then n + 32 else n)%nat
    else (if lower_code n then n - 32 else n)%nat.
Proof.
  unfold to_upper, to_lower, is_lower, is_upper, upper_code, lower_code.
  cbv zeta. pose proof (nat_ascii_bounded c) as Hc.
  destruct (Nat.leb_spec 97 (nat_of_ascii c)),
    (Nat.leb_spec (nat_of_ascii c) 122),
    (Nat.leb_spec 65 (nat_of_ascii c)),
    (Nat.leb_spec (nat_of_ascii c) 90);
    cbn [andb]; destruct b; trivial; try lia;
    apply nat_ascii_embedding; lia.
Qed.

Lemma title_from_get (s : string) :
  forall (b : bool) (i : nat) (c : ascii),
    String.get i s = Some c ->
    exists c' : ascii,
      String.get i (title_from b s) = Some c'
      /\ nat_of_ascii c'
         = let n := nat_of_ascii c in
           if match i with O => b | S _ => letter_before s i end
           then (if upper_code n then n + 32 else n)%nat
           else (if lower_code n then n - 32 else n)%nat.
Proof.
  induction s as [|a rest IH]; intros b i c Hget; [discriminate Hget |].
  rewrite title_from_cons. destruct i as [|j].
  - simpl in Hget. inversion Hget; subst a. eexists. split; [reflexivity |].
    apply title_from_code.
  - simpl in Hget. destruct (IH (is_lower a || is_upper a) j c Hget)
      as (c' & Hc' & Hcode).
    exists c'. split; [exact Hc' |]. rewrite Hcode.
    destruct j as [|j']; [| reflexivity].
    unfold letter_before. simpl String.get. cbv zeta.
    change (is_lower a) with (lower_code (nat_of_ascii a)).
    change (is_upper a) with (upper_code (nat_of_ascii a)).
    now rewrite orb_comm.
Qed.

Lemma ascii_title_titled (s : string) : titled s (ascii_title s).
Proof.
  split; [apply title_from_length |].
  intros i c Hget.
  destruct (title_from_get s false i c Hget) as (c' & Hc' & Hcode).
  exists c'. split; [exact Hc' |]. rewrite Hcode. now destruct i.
Qed.

(** *** Decimal numerals *)

Lemma to_int_nonnil (z : Z) :
  Z.to_int z <> Decimal.Pos Decimal.Nil /\ Z.to_int z <> Decimal.Neg Decimal.Nil.
Proof.
  destruct z as [|p|p]; simpl; split; try discriminate;
    intros Hp; inversion Hp as [Hn];
    now apply DecimalPos.Unsigned.to_uint_nonnil in Hn.
Qed.

Lemma str_of_int_reads_as (z : Z) : reads_as (str_of_int z) z.
Proof.
  destruct (to_int_nonnil z) as [H1 H2]. unfold reads_as, str_of_int. split.
  - destruct (Z.to_int z) as [d|d]; simpl; [| discriminate].
    destruct d; simpl; discriminate.
  - apply (NilZero.isi _ H1 H2).
Qed.

Lemma no_slash_uint (d : Decimal.uint) : no_slash (NilEmpty.string_of_uint d) = true.
Proof. induction d; simpl; trivial. Qed.

Lemma no_slash_str_of_int (z : Z) : no_slash (str_of_int z) = true.
Proof.
  unfold str_of_int.
  destruct (Z.to_int z) as [d|d]; simpl; destruct d; simpl;
    trivial; apply no_slash_uint.
Qed.

(** C4.  The serialized form has exactly the fourteen fields named in the
    specification, each holding a number, a string or a list of strings:
    style and instruments by their tags, the dials, duration, richness and
    range as they are, the key as "Tonic Mode" and the time signature as
    "N/D".  "Mode" is the mode in title case, which for a mode in ASCII is
    the mode itself with every letter after a letter in lower case and
    every other letter in upper case.  "N" and "D" are the decimal
    numerals of numerator and denominator: neither is empty nor holds a
    slash, and each reads back as its number. *)
Theorem to_dict_flat_record (T : StrTitle) (self : MusicalParameters) :
  StrTitleLaws T ->
  dom (to_dict self) = list_to_set serialized_fields
  /\ (to_dict self !! "tempo" = Some (VInt (tempo self))
  /\ to_dict self !! "key"
     = Some (VStr (tonic (key self) +:+ " " +:+ title (mode (key self))))
  /\ to_dict self !! "time_signature"
     = Some (VStr (str_of_int (numerator (time_signature self)) +:+ "/"
                   +:+ str_of_int (denominator (time_signature self))))
  /\ to_dict self !! "style" = Some (VStr (MusicStyle_value (style self)))
  /\ to_dict self !! "primary_instruments"
     = Some (VStrList (map InstrumentFamily_value (primary_instruments self)))
  /\ to_dict self !! "secondary_instruments"
     = Some (VStrList (tags (secondary_instruments self)))
  /\ to_dict self !! "energy_level" = Some (VFloat (energy_level self))
  /\ to_dict self !! "complexity" = Some (VFloat (complexity self))
  /\ to_dict self !! "brightness" = Some (VFloat (brightness self))
  /\ to_dict self !! "tension" = Some (VFloat (tension self))
  /\ to_dict self !! "duration" = Some (VFloat (duration self))
  /\ to_dict self !! "harmonic_richness" = Some (VFloat (harmonic_richness self))
  /\ to_dict self !! "rhythmic_complexity"
     = Some (VFloat (rhythmic_complexity self))
  /\ to_dict self !! "melodic_range" = Some (VStr (melodic_range self)))
  /\ (ascii_text (mode (key self)) = true ->
      titled (mode (key self)) (title (mode (key self))))
  /\ reads_as (str_of_int (numerator (time_signature self)))
       (numerator (time_signature self))
  /\ reads_as (str_of_int (denominator (time_signature self)))
       (denominator (time_signature self))
  /\ no_slash (str_of_int (numerator (time_signature self))) = true
  /\ no_slash (str_of_int (denominator (time_signature self))) = true.
Proof.
  intros Laws. split; [| split; [apply to_dict_lookups |]].
  - unfold to_dict. rewrite !dom_insert_L, dom_empty_L. reflexivity.
  - split; [| repeat split; try apply str_of_int_reads_as;
              apply no_slash_str_of_int].
    intros Hascii. rewrite (title_ascii _ Hascii). apply ascii_title_titled.
Qed.

Lemma to_dict_flat_record_witness :
  StrTitleLaws ascii_only_title
  /\ to_dict (T := ascii_only_title) folk_params !! "tempo" = Some (VInt 85)
  /\ to_dict (T := ascii_only_title) folk_params !! "key"
     = Some (VStr "G Major")
  /\ to_dict (T := ascii_only_title) folk_params !! "time_signature"
     = Some (VStr "4/4")
  /\ to_dict (T := ascii_only_title) folk_params !! "style"
     = Some (VStr "folk")
  /\ titled "major" "Major"
  /\ reads_as "4" 4.
Proof.
  destruct (to_dict_flat_record ascii_only_title folk_params
              ascii_only_title_laws)
    as (_ & (Htempo & Hkey & Hts & Hstyle & _) & Htitled & Hnum & _).
  split; [exact ascii_only_title_laws |].
  split; [exact Htempo |]. split; [exact Hkey |]. split; [exact Hts |].
  split; [exact Hstyle |]. split; [exact (Htitled eq_refl) | exact Hnum].
Defined.

Example to_dict_folk :
  to_dict (T := ascii_only_title) folk_params !! "key" = Some (VStr "G Major")
  /\ to_dict (T := ascii_only_title) folk_params !! "time_signature"
     = Some (VStr "4/4")
  /\ to_dict (T := ascii_only_title) folk_params !! "style"
     = Some (VStr "folk")
  /\ to_dict (T := ascii_only_title) folk_params !! "primary_instruments"
     = Some (VStrList ["guitar"; "percussion"])
  /\ to_dict (T := ascii_only_title) folk_params !! "secondary_instruments"
     = Some (VStrList [])
  /\ to_dict (T := ascii_only_title) folk_params !! "fade_in" = None.
Proof. repeat split. Qed.

Example title_examples :
  ascii_title "minor" = "Minor" /\ ascii_title "MAJOR" = "Major"
  /\ ascii_title "harmonic minor" = "Harmonic Minor"
  /\ ascii_title "b-flat" = "B-Flat".
Proof. repeat split. Qed.

(** *** What the serialized form determines *)

(** C3, as stated, fails: [to_dict] maps a parameter set without
    secondary instruments ([None]) and one with an empty list of them to
    the same dictionary, so no deserializer gives back both, whatever
    [title] does. *)
Lemma to_dict_round_trip_impossible :
  ~ (exists (T : StrTitle)
            (from_dict : gmap string pyval -> MusicalParameters),
       forall p : MusicalParameters, from_dict (to_dict p) = p).
Proof.
  intros (T & from_dict & Hrt).
  assert (Hsame : to_dict folk_params = to_dict folk_params_no_secondary)
    by reflexivity.
  assert (Heq : folk_params = folk_params_no_secondary)
    by (rewrite <- (Hrt folk_params), <- (Hrt folk_params_no_secondary);
        now rewrite Hsame).
  discriminate Heq.
Qed.

(** The mode is title-cased on the way out: "minor" and "Minor" meet. *)
Example to_dict_forgets_case (T : StrTitle) :
  StrTitleLaws T ->
  to_dict (MusicalParameters_defaults 60 (mkMusicalKey "A" "minor")
             (mkTimeSignature 3 4) CLASSICAL [PIANO])
  = to_dict (MusicalParameters_defaults 60 (mkMusicalKey "A" "Minor")
               (mkTimeSignature 3 4) CLASSICAL [PIANO]).
Proof.
  intros Laws. unfold to_dict, MusicalKey_str. simpl.
  now rewrite (title_ascii "minor"), (title_ascii "Minor").
Qed.

Lemma MusicStyle_value_inj (s t : MusicStyle) :
  MusicStyle_value s = MusicStyle_value t -> s = t.
Proof. destruct s, t; simpl; intros Heq; solve [reflexivity | discriminate Heq]. Qed.

Lemma InstrumentFamily_value_inj (i j : InstrumentFamily) :
  InstrumentFamily_value i = InstrumentFamily_value j -> i = j.
Proof. destruct i, j; simpl; intros Heq; solve [reflexivity | discriminate Heq]. Qed.

Lemma instrument_tags_inj (l m : list InstrumentFamily) :
  map InstrumentFamily_value l = map InstrumentFamily_value m -> l = m.
Proof.
  revert m. induction l as [|i l IH]; intros [|j m]; simpl; intros Heq;
    try discriminate; [reflexivity |].
  inversion Heq as [[Hhead Htail]].
  apply InstrumentFamily_value_inj in Hhead. apply IH in Htail. congruence.
Qed.

(** [str] of an integer: no two integers print alike. *)
Lemma str_of_int_inj (a b : Z) : str_of_int a = str_of_int b -> a = b.
Proof.
  unfold str_of_int. intros Heq.
  destruct (to_int_nonnil a) as [Ha1 Ha2], (to_int_nonnil b) as [Hb1 Hb2].
  pose proof (NilZero.isi _ Ha1 Ha2) as Ia.
  pose proof (NilZero.isi _ Hb1 Hb2) as Ib.
  rewrite Heq, Ib in Ia. inversion Ia as [Hab].
  now apply DecimalZ.to_int_inj.
Qed.

(** A string is cut at its first separator in one way only. *)
Lemma slash_split (s1 s2 t1 t2 : string) :
  no_slash s1 = true -> no_slash s2 = true ->
  s1 +:+ "/" +:+ t1 = s2 +:+ "/" +:+ t2 -> s1 = s2 /\ t1 = t2.
Proof.
  revert s2. induction s1 as [|c s1 IH]; intros [|c' s2]; simpl;
    intros H1 H2 Heq.
  - inversion Heq. now split.
  - inversion Heq; subst c'. discriminate H2.
  - inversion Heq; subst c. discriminate H1.
  - inversion Heq; subst c'.
    apply andb_prop in H1, H2. destruct H1 as [_ H1], H2 as [_ H2].
    destruct (IH s2 H1 H2) as [-> ->]; [assumption | now split].
Qed.

Lemma TimeSignature_str_inj (t u : TimeSignature) :
  TimeSignature_str t = TimeSignature_str u -> t = u.
Proof.
  destruct t as [n d], u as [n' d']. unfold TimeSignature_str; simpl.
  intros Heq. apply slash_split in Heq; try apply no_slash_str_of_int.
  destruct Heq as [Hn Hd].
  apply str_of_int_inj in Hn, Hd. congruence.
Qed.

(** The value that [to_dict] stores under a field name. *)
Lemma to_dict_lookup_eq {T : StrTitle} (p q : MusicalParameters)
    (field : string) (v v' : pyval) :
  to_dict p = to_dict q ->
  to_dict p !! field = Some v -> to_dict q !! field = Some v' -> v = v'.
Proof. intros ->. congruence. Qed.

(** C3, amended.  Two parameter sets with the same serialized form agree
    field for field on tempo, time signature, style, primary instruments,
    the four dials, duration, harmonic richness, rhythmic complexity and
    melodic range; their secondary instruments agree once [None] is read as
    the empty list, and their keys print as the same "Tonic Mode" string.
    So reading the serialized form back restores each of these. *)
Theorem to_dict_determines_fields (T : StrTitle) (p q : MusicalParameters) :
  to_dict p = to_dict q ->
  tempo p = tempo q
  /\ MusicalKey_str (key p) = MusicalKey_str (key q)
  /\ time_signature p = time_signature q
  /\ style p = style q
  /\ primary_instruments p = primary_instruments q
  /\ default [] (secondary_instruments p) = default [] (secondary_instruments q)
  /\ energy_level p = energy_level q
  /\ complexity p = complexity q
  /\ brightness p = brightness q
  /\ tension p = tension q
  /\ duration p = duration q
  /\ harmonic_richness p = harmonic_richness q
  /\ rhythmic_complexity p = rhythmic_complexity q
  /\ melodic_range p = melodic_range q.
Proof.
  intros Heq.
  destruct (to_dict_lookups p)
    as (P1 & P2 & P3 & P4 & P5 & P6 & P7 & P8 & P9 & P10 & P11 & P12 & P13 & P14).
  destruct (to_dict_lookups q)
    as (Q1 & Q2 & Q3 & Q4 & Q5 & Q6 & Q7 & Q8 & Q9 & Q10 & Q11 & Q12 & Q13 & Q14).
  pose proof (to_dict_lookup_eq p q _ _ _ Heq P1 Q1) as E1.
  pose proof (to_dict_lookup_eq p q _ _ _ Heq P2 Q2) as E2.
  pose proof (to_dict_lookup_eq p q _ _ _ Heq P3 Q3) as E3.
  pose proof (to_dict_lookup_eq p q _ _ _ Heq P4 Q4) as E4.
  pose proof (to_dict_lookup_eq p q _ _ _ Heq P5 Q5) as E5.
  pose proof (to_dict_lookup_eq p q _ _ _ Heq P6 Q6) as E6.
  pose proof (to_dict_lookup_eq p q _ _ _ Heq P7 Q7) as E7.
  pose proof (to_dict_lookup_eq p q _ _ _ Heq P8 Q8) as E8.
  pose proof (to_dict_lookup_eq p q _ _ _ Heq P9 Q9) as E9.
  pose proof (to_dict_lookup_eq p q _ _ _ Heq P10 Q10) as E10.
  pose proof (to_dict_lookup_eq p q _ _ _ Heq P11 Q11) as E11.
  pose proof (to_dict_lookup_eq p q _ _ _ Heq P12 Q12) as E12.
  pose proof (to_dict_lookup_eq p q _ _ _ Heq P13 Q13) as E13.
  pose proof (to_dict_lookup_eq p q _ _ _ Heq P14 Q14) as E14.
  inversion E1; inversion E2; inversion E3; inversion E4; inversion E5;
    inversion E6; inversion E7; inversion E8; inversion E9; inversion E10;
    inversion E11; inversion E12; inversion E13; inversion E14.
  repeat split; trivial.
  - now apply TimeSignature_str_inj.
  - now apply MusicStyle_value_inj.
  - now apply instrument_tags_inj.
  - now apply instrument_tags_inj.
Qed.

Lemma to_dict_determines_fields_witness :
  to_dict (T := ascii_only_title) folk_params
  = to_dict (T := ascii_only_title) folk_params_no_secondary
  /\ folk_params <> folk_params_no_secondary
  /\ time_signature folk_params_no_secondary = time_signature folk_params
  /\ default [] (secondary_instruments folk_params_no_secondary) = [].
Proof.
  assert (Hsame : to_dict (T := ascii_only_title) folk_params
                  = to_dict (T := ascii_only_title) folk_params_no_secondary)
    by reflexivity.
  destruct (to_dict_determines_fields ascii_only_title _ _ Hsame)
    as (_ & _ & Hts & _ & _ & Hsec & _).
  split; [exact Hsame |]. split; [discriminate |].
  split; [now rewrite <- Hts | now rewrite <- Hsec].
Defined.

(** ** Dominant-object selection *)

Lemma Fle_refl a : is_nan a = false -> Fle a a.
Proof. destruct a; simpl; intros; try discriminate; constructor. apply Qle_refl. Qed.

Lemma Flt_Fle a b : Flt a b -> Fle a b.
Proof. destruct 1; constructor. now apply Qlt_le_weak. Qed.

Lemma Flt_not_Feq a b : Flt a b -> ~ Feq a b.
Proof.
  intros Hlt Heq. apply (Flt_not_Fle _ _ Hlt). apply Feq_Fle. now apply Feq_sym.
Qed.

Lemma dominates_iff (a b : DetectedObject) :
  dominates a b = true <->
  Flt (confidence b) (confidence a)
  \/ (Feq (confidence a) (confidence b)
      /\ area (bounding_box b) < area (bounding_box a)).
Proof.
  unfold dominates, fgt.
  rewrite orb_true_iff, andb_true_iff, flt_Flt, feq_Feq, Z.ltb_lt. tauto.
Qed.

Lemma select_dominant_nonempty (detections : list DetectedObject) :
  detections <> [] -> exists s, select_dominant detections = Some s.
Proof.
  destruct detections as [|d rest]; [congruence |]. intros _. simpl.
  destruct (select_dominant rest) as [b|]; [destruct (dominates b d) |]; eauto.
Qed.

Lemma select_dominant_is_dominant (detections : list DetectedObject) :
  Forall (fun d => is_nan (confidence d) = false) detections ->
  forall s, select_dominant detections = Some s ->
  exists i, dominant_at detections i s.
Proof.
  induction detections as [|d rest IH]; simpl; intros Hnan s Hsel;
    [discriminate |].
  inversion Hnan as [|? ? Hd Hrest]; subst.
  destruct (select_dominant rest) as [b|] eqn:Eb.
  - destruct (IH Hrest b eq_refl) as (i & Hi & Hmax).
    assert (Hb : is_nan (confidence b) = false).
    { rewrite list.Forall_forall in Hrest. apply Hrest.
      eapply list_elem_of_lookup_2; eassumption. }
    destruct (dominates b d) eqn:Edom; inversion Hsel; subst s.
    + (* the best of the rest dominates the head *)
      apply dominates_iff in Edom. exists (S i). split; [exact Hi |].
      intros [|j] e He; simpl in He.
      * inversion He; subst e.
        destruct Edom as [Hlt | [Heq Harea]].
        -- split; [now apply Flt_Fle |].
           split; intros Heq; exfalso; eapply Flt_not_Feq; eassumption.
        -- split; [apply Feq_Fle; now apply Feq_sym |]. split; lia.
      * destruct (Hmax j e He) as (H1 & H2 & H3).
        repeat split; trivial. intros Heq Harea. specialize (H3 Heq Harea). lia.
    + (* the head stays *)
      exists 0%nat. split; [reflexivity |].
      assert (Hbd : Fle (confidence b) (confidence d)).
      { destruct (Fle_or_Flt (confidence b) (confidence d) Hb Hd) as [|Hlt];
          [assumption |].
        assert (dominates b d = true) by (apply dominates_iff; now left).
        congruence. }
      intros [|j] e He; simpl in He.
      * inversion He; subst e.
        split; [now apply Fle_refl |]. split; intros; lia.
      * destruct (Hmax j e He) as (H1 & H2 & _).
        split; [eapply Fle_trans; eassumption |].
        split; [| intros; lia].
        intros Hed.
        assert (Hde : Fle (confidence d) (confidence e))
          by (apply Feq_Fle; now apply Feq_sym).
        assert (Heb : Feq (confidence e) (confidence b)).
        { apply Fle_antisym; [assumption |]. eapply Fle_trans; eassumption. }
        assert (Hbd' : Feq (confidence b) (confidence d)).
        { apply Fle_antisym; [assumption |]. eapply Fle_trans; eassumption. }
        specialize (H2 Heb).
        destruct (Z.lt_ge_cases (area (bounding_box d)) (area (bounding_box b)))
          as [Hlt | Hge]; [| lia].
        assert (dominates b d = true) by (apply dominates_iff; now right).
        congruence.
  - inversion Hsel; subst s. destruct rest as [|e rest'].
    + exists 0%nat. split; [reflexivity |].
      intros [|j] e He; simpl in He; [| discriminate].
      inversion He; subst e. split; [now apply Fle_refl |]. split; intros; lia.
    + exfalso. destruct (select_dominant_nonempty (e :: rest')) as [s Hs];
        [discriminate | congruence].
Qed.

Example select_dominant_area_tie_break :
  area (bounding_box classA) = 100 /\ area (bounding_box classB) = 200
  /\ select_dominant [classA; classB] = Some classB
  /\ select_dominant [classB; classA] = Some classB.
Proof. repeat split. Qed.

(** Equal in confidence and area: the earlier one is selected. *)
Example select_dominant_position_tie_break :
  let classC :=
    mkDetectedObject "obj_2" "classC" (confidence classB)
      (mkBoundingBox 5 5 20 10) (FFin 0) None None in
  select_dominant [classA; classB; classC] = Some classB
  /\ select_dominant [classA; classC; classB] = Some classC.
Proof. repeat split. Qed.

(** C1.  On a list of detections (none with a NaN confidence, which no
    order ranks) the selected detection has the highest confidence; among
    those of that confidence the largest area; among those equal in both
    the earliest position.  Equal lists select the same detection. *)
Theorem select_dominant_total_order (detections detections' : list DetectedObject) :
  detections = detections' ->
  detections <> [] ->
  Forall (fun d => is_nan (confidence d) = false) detections ->
  exists (i : nat) (s : DetectedObject),
    select_dominant detections = Some s
    /\ select_dominant detections' = Some s
    /\ dominant_at detections i s.
Proof.
  intros <- Hne Hnan.
  destruct (select_dominant_nonempty detections Hne) as [s Hs].
  destruct (select_dominant_is_dominant detections Hnan s Hs) as [i Hi].
  exists i, s. split; [exact Hs |]. split; [exact Hs | exact Hi].
Qed.

Lemma select_dominant_total_order_witness :
  [classA; classB] <> []
  /\ Forall (fun d => is_nan (confidence d) = false) [classA; classB]
  /\ exists i s,
       select_dominant [classA; classB] = Some s
       /\ select_dominant [classA; classB] = Some s
       /\ dominant_at [classA; classB] i s.
Proof.
  assert (Hne : [classA; classB] <> []) by discriminate.
  assert (Hnan : Forall (fun d => is_nan (confidence d) = false) [classA; classB])
    by (repeat constructor).
  split; [exact Hne |]. split; [exact Hnan |].
  exact (select_dominant_total_order [classA; classB] [classA; classB]
           eq_refl Hne Hnan).
Defined.

(** * Further properties of the sources *)

(** ** Strings and lists *)

Lemma str_app_nil (s : string) : "" +:+ s = s.
Proof. reflexivity. Qed.

Lemma str_app_cons (c : ascii) (a s : string) :
  String c a +:+ s = String c (a +:+ s).
Proof. reflexivity. Qed.

Lemma startswith_iff (t s : string) :
  startswith t s = true <-> exists b, s = t +:+ b.
Proof.
  revert s. induction t as [|c t IH]; intros s; simpl.
  - split; [intros _; now exists s | trivial].
  - destruct s as [|d s].
    + split; [discriminate | intros [b Hb]; discriminate Hb].
    + rewrite andb_true_iff, Ascii.eqb_eq, IH. split.
      * intros [-> [b ->]]. now exists b.
      * intros [b Hb]. rewrite str_app_cons in Hb. inversion Hb; subst. eauto.
Qed.

Lemma endswith_iff (t s : string) :
  endswith t s = true <-> exists a, s = a +:+ t.
Proof.
  induction s as [|d s IH]; simpl.
  - rewrite orb_false_r, String.eqb_eq. split.
    + intros ->. now exists "".
    + intros [[|c a] Ha]; [now rewrite str_app_nil in Ha |].
      rewrite str_app_cons in Ha. discriminate Ha.
  - rewrite orb_true_iff, String.eqb_eq, IH. split.
    + intros [-> | [a ->]]; [now exists "" | now exists (String d a)].
    + intros [[|c a] Ha].
      * left. now rewrite str_app_nil in Ha.
      * rewrite str_app_cons in Ha. inversion Ha; subst. right. now exists a.
Qed.

Lemma contains_iff (t s : string) :
  contains t s = true <-> exists a b, s = a +:+ t +:+ b.
Proof.
  induction s as [|d s IH]; simpl.
  - rewrite orb_false_r, startswith_iff. split.
    + intros [b Hb]. now exists "", b.
    + intros ([|c a] & b & Hab); [now exists b |].
      rewrite str_app_cons in Hab. discriminate Hab.
  - rewrite orb_true_iff, startswith_iff, IH. split.
    + intros [[b Hb] | (a & b & ->)]; [now exists "", b |].
      now exists (String d a), b.
    + intros ([|c a] & b & Hab); [left; now exists b |].
      rewrite str_app_cons in Hab. inversion Hab; subst. right. now exists a, b.
Qed.

Lemma getitem_list_in_range {A} (l : list A) (i : nat) (a : A) :
  l !! i = Some a -> getitem_list l (Z.of_nat i) = Ok a.
Proof.
  intros Hi. pose proof (lookup_lt_Some _ _ _ Hi) as Hlt.
  unfold getitem_list.
  destruct (Z.ltb_spec (Z.of_nat i) 0); [lia |].
  destruct (Z.ltb_spec (Z.of_nat i) 0); [lia |].
  destruct (Z.leb_spec (Z.of_nat (length l)) (Z.of_nat i)); [lia |].
  simpl. now rewrite Nat2Z.id, Hi.
Qed.

Lemma getitem_list_past_end {A} (l : list A) (idx : Z) :
  Z.of_nat (length l) <= idx -> getitem_list l idx = Raise IndexError.
Proof.
  intros Hge. unfold getitem_list.
  destruct (Z.ltb_spec idx 0); [lia |].
  destruct (Z.ltb_spec idx 0); [lia |].
  destruct (Z.leb_spec (Z.of_nat (length l)) idx); [reflexivity | lia].
Qed.

(** ** AudioDataset *)

Lemma init_loop_state (folder : string) (listing : list string) :
  forall self : AudioDataset,
    let self' := fold_left (init_step folder) listing self in
    files self' = files self ++ map (path_join folder) (wav_entries listing)
    /\ labels self'
       = labels self ++ omap (first_label (label_map self)) (wav_entries listing)
    /\ label_map self' = label_map self.
Proof.
  induction listing as [|f listing IH]; intros self; simpl.
  - now rewrite !app_nil_r.
  - destruct (IH (init_step folder self f)) as (Hf & Hl & Hm).
    unfold wav_entries; simpl. fold (wav_entries listing).
    rewrite Hf, Hl, Hm. clear IH Hf Hl Hm.
    unfold init_step. destruct (endswith ".wav" f); simpl; [| easy].
    destruct (first_label (label_map self) f); simpl;
      now rewrite <- !app_assoc.
Qed.

Lemma init_state (folder : string) (listing : list string) :
  files (__init__ folder listing) = map (path_join folder) (wav_entries listing)
  /\ labels (__init__ folder listing) = omap label_of (wav_entries listing).
Proof.
  destruct (init_loop_state folder listing (mkAudioDataset [] [] the_label_map))
    as (Hf & Hl & _).
  split; [exact Hf | exact Hl].
Qed.

Lemma path_join_endswith (folder f t : string) :
  endswith t f = true -> endswith t (path_join folder f) = true.
Proof.
  rewrite !endswith_iff. intros [a ->]. unfold path_join.
  destruct (startswith "/" (a +:+ t)); [now exists a |].
  destruct (String.eqb folder "" || endswith "/" folder).
  - exists (folder +:+ a). clear. induction folder as [|c folder IH];
      [reflexivity | rewrite !str_app_cons; now f_equal].
  - exists (folder +:+ "/" +:+ a). clear. induction folder as [|c folder IH];
      [reflexivity | rewrite !str_app_cons; now f_equal].
Qed.

(** X1.  The dataset lists exactly the directory entries whose name ends
    in [.wav], in the order of the listing, each joined to the folder; its
    length is their number, and every stored path still ends in [.wav]. *)
Theorem dataset_files_are_wav_entries (folder : string) (listing : list string) :
  let self := __init__ folder listing in
  files self = map (path_join folder) (wav_entries listing)
  /\ __len__ self = Z.of_nat (length (wav_entries listing))
  /\ Forall (fun path => endswith ".wav" path = true) (files self).
Proof.
  destruct (init_state folder listing) as (Hf & _).
  cbv zeta. unfold __len__. rewrite Hf.
  split; [reflexivity |]. split.
  - now rewrite length_map.
  - apply list.Forall_forall. intros path Hpath.
    apply list_elem_of_In, in_map_iff in Hpath.
    destruct Hpath as (f & <- & Hf'). apply path_join_endswith.
    apply filter_In in Hf'. tauto.
Qed.

Lemma omap_cons {A C} (f : A -> option C) (a : A) (l : list A) :
  omap f (a :: l)
  = match f a with Some c => c :: omap f l | None => omap f l end.
Proof. reflexivity. Qed.

Lemma length_omap_le {A C} (f : A -> option C) (l : list A) :
  (length (omap f l) <= length l)%nat.
Proof.
  induction l as [|a l IH]; [simpl; lia |].
  rewrite omap_cons. destruct (f a); simpl; lia.
Qed.

Lemma length_omap_full {A C} (f : A -> option C) (l : list A) :
  length (omap f l) = length l <-> Forall (fun a => is_Some (f a)) l.
Proof.
  induction l as [|a l IH].
  - split; [constructor | reflexivity].
  - pose proof (length_omap_le f l) as Hle. rewrite omap_cons.
    destruct (f a) as [c|] eqn:Ea; simpl; split.
    + intros Hlen. constructor; [rewrite Ea; eauto | apply IH; lia].
    + intros Hall. inversion Hall; subst. f_equal. now apply IH.
    + intros Hlen. lia.
    + intros Hall. inversion Hall as [|? ? [c Hc]]; subst. congruence.
Qed.

Lemma lookup_omap_full {A C} (f : A -> option C) (l : list A) (i : nat) :
  Forall (fun a => is_Some (f a)) l -> omap f l !! i = l !! i ≫= f.
Proof.
  intros Hall. revert i. induction Hall as [|a l [c Hc] Hall IH]; intros i.
  - reflexivity.
  - rewrite omap_cons, Hc. destruct i as [|i]; simpl; [now rewrite Hc | apply IH].
Qed.

Lemma label_of_values (f : string) (v : Z) : label_of f = Some v -> 0 <= v <= 2.
Proof.
  unfold label_of, the_label_map; simpl.
  destruct (contains "clap" f); [intros [= <-]; lia |].
  destruct (contains "silence" f); [intros [= <-]; lia |].
  destruct (contains "whistle" f); [intros [= <-]; lia | discriminate].
Qed.

Lemma dataset_labels_lengths (folder : string) (listing : list string) :
  (length (labels (__init__ folder listing))
   <= length (files (__init__ folder listing)))%nat
  /\ (length (labels (__init__ folder listing))
      = length (files (__init__ folder listing))
      <-> Forall (fun f => is_Some (label_of f)) (wav_entries listing)).
Proof.
  destruct (init_state folder listing) as (Hf & Hl).
  rewrite Hf, Hl, length_map.
  split; [apply length_omap_le | apply length_omap_full].
Qed.

(** X2.  The labels are those of the [.wav] entries whose name contains
    one of the keys of the label map, in order; an entry without key adds
    a file but no label.  So there are never more labels than files, and
    as many exactly when every [.wav] name contains a key; each label is
    0, 1 or 2. *)
Theorem dataset_labels_skip_unlabelled (folder : string) (listing : list string) :
  let self := __init__ folder listing in
  labels self = omap label_of (wav_entries listing)
  /\ (length (labels self) <= length (files self))%nat
  /\ (length (labels self) = length (files self)
      <-> Forall (fun f => is_Some (label_of f)) (wav_entries listing))
  /\ Forall (fun v => 0 <= v <= 2) (labels self).
Proof.
  destruct (init_state folder listing) as (Hf & Hl).
  cbv zeta. rewrite Hf, Hl, length_map.
  split; [reflexivity |]. split; [apply length_omap_le |].
  split; [apply length_omap_full |].
  apply list.Forall_forall. intros v Hv.
    apply list_elem_of_omap in Hv. destruct Hv as (f & _ & Hfv).
    eapply label_of_values; eassumption.
Qed.

(** X3.  When every [.wav] name contains a key, item [i] of the dataset is
    the tensor of the [i]-th [.wav] entry with the label of that same
    entry: label 0 if its name contains "clap", else 1 if it contains
    "silence", else 2. *)
Theorem dataset_getitem_aligned {Tensor : Type}
    (load_mfcc : string -> result Tensor)
    (folder : string) (listing : list string) (i : nat) (f : string) :
  Forall (fun f => is_Some (label_of f)) (wav_entries listing) ->
  wav_entries listing !! i = Some f ->
  let label :=
    if contains "clap" f then 0 else if contains "silence" f then 1 else 2 in
  __getitem__ load_mfcc (__init__ folder listing) (Z.of_nat i)
  = (mfcc ← load_mfcc (path_join folder f); mret (mfcc, label)).
Proof.
  intros Hall Hi label.
  destruct (init_state folder listing) as (Hf & Hl).
  unfold __getitem__.
  assert (Hlab : label_of f = Some label).
  { rewrite list.Forall_forall in Hall.
    destruct (Hall f) as [v Hv]; [eapply list_elem_of_lookup_2; eassumption |].
    revert Hv. unfold label, label_of, the_label_map; simpl.
    destruct (contains "clap" f); [reflexivity |].
    destruct (contains "silence" f); [reflexivity |].
    destruct (contains "whistle" f); [reflexivity | discriminate]. }
  rewrite (getitem_list_in_range _ i (path_join folder f)).
  2:{ rewrite Hf. change (map (path_join folder) (wav_entries listing))
        with (path_join folder <$> wav_entries listing).
      now rewrite list_lookup_fmap, Hi. }
  rewrite (getitem_list_in_range _ i label).
  2:{ rewrite Hl, lookup_omap_full by assumption. now rewrite Hi. }
  reflexivity.
Qed.

Lemma dataset_getitem_aligned_witness :
  Forall (fun f => is_Some (label_of f))
    (wav_entries ["whistle_clap.wav"; "notes.txt"; "silence_3.wav"])
  /\ __getitem__ path_loader
       (__init__ "data" ["whistle_clap.wav"; "notes.txt"; "silence_3.wav"]) 1
     = Ok ("data/silence_3.wav", 1)
  /\ __getitem__ path_loader
       (__init__ "data" ["whistle_clap.wav"; "notes.txt"; "silence_3.wav"]) 0
     = Ok ("data/whistle_clap.wav", 0).
Proof.
  assert (Hall : Forall (fun f => is_Some (label_of f))
                   (wav_entries ["whistle_clap.wav"; "notes.txt"; "silence_3.wav"]))
    by (repeat constructor; eexists; reflexivity).
  split; [exact Hall |]. split.
  - exact (dataset_getitem_aligned path_loader "data"
             ["whistle_clap.wav"; "notes.txt"; "silence_3.wav"] 1%nat
             "silence_3.wav" Hall eq_refl).
  - exact (dataset_getitem_aligned path_loader "data"
             ["whistle_clap.wav"; "notes.txt"; "silence_3.wav"] 0%nat
             "whistle_clap.wav" Hall eq_refl).
Defined.

(** X4.  When some [.wav] name contains no key, the dataset has fewer
    labels than files, and asking for its last item never returns: once
    the file is loaded, the label list raises IndexError. *)
Theorem dataset_getitem_unlabelled_entry {Tensor : Type}
    (load_mfcc : string -> result Tensor)
    (folder : string) (listing : list string) (f : string) :
  f ∈ wav_entries listing -> label_of f = None ->
  let self := __init__ folder listing in
  (length (labels self) < length (files self))%nat
  /\ (forall item, __getitem__ load_mfcc self (__len__ self - 1) <> Ok item)
  /\ (forall path mfcc,
        getitem_list (files self) (__len__ self - 1) = Ok path ->
        load_mfcc path = Ok mfcc ->
        __getitem__ load_mfcc self (__len__ self - 1) = Raise IndexError).
Proof.
  intros Hin Hnone self.
  destruct (dataset_labels_lengths folder listing) as (Hle & Hiff).
  assert (Hlt : (length (labels self) < length (files self))%nat).
  { destruct (Nat.eq_dec (length (labels self)) (length (files self))) as [E|];
      [| subst self; lia].
    exfalso. apply Hiff in E. rewrite list.Forall_forall in E.
    destruct (E f Hin) as [v Hv]. congruence. }
  assert (Hraise : getitem_list (labels self) (__len__ self - 1) = Raise IndexError).
  { apply getitem_list_past_end. unfold __len__. lia. }
  split; [exact Hlt |]. split.
  - intros item. unfold __getitem__.
    destruct (getitem_list (files self) _) as [path|]; [| discriminate]. simpl.
    destruct (load_mfcc path) as [mfcc|]; [| discriminate]. simpl.
    rewrite Hraise. discriminate.
  - intros path mfcc Hpath Hload. unfold __getitem__.
    rewrite Hpath. simpl. rewrite Hload. simpl. now rewrite Hraise.
Qed.

(** With one unlabelled entry first, every later label moves one place
    up: the noise file gets the label of the clap file. *)
Lemma dataset_getitem_unlabelled_entry_witness :
  "noise.wav" ∈ wav_entries ["noise.wav"; "clap.wav"; "whistle.wav"]
  /\ label_of "noise.wav" = None
  /\ __getitem__ path_loader
       (__init__ "data/" ["noise.wav"; "clap.wav"; "whistle.wav"]) 0
     = Ok ("data/noise.wav", 0)
  /\ __getitem__ path_loader
       (__init__ "data/" ["noise.wav"; "clap.wav"; "whistle.wav"]) 2
     = Raise IndexError.
Proof.
  assert (Hin : "noise.wav" ∈ wav_entries ["noise.wav"; "clap.wav"; "whistle.wav"])
    by (apply list_elem_of_In; simpl; tauto).
  split; [exact Hin |]. split; [reflexivity |]. split; [reflexivity |].
  destruct (dataset_getitem_unlabelled_entry path_loader "data/"
              ["noise.wav"; "clap.wav"; "whistle.wav"] "noise.wav" Hin eq_refl)
    as (_ & _ & Hlast).
  exact (Hlast "data/whistle.wav" "data/whistle.wav" eq_refl eq_refl).
Defined.

(** ** MockVisionProcessor.detect_objects on an initialized processor *)

Section DetectInitialized.
Context (B : Binary64).

Lemma choice_inversion {A} (seq : list A) (w : world) (a : A) (w' : world) :
  choice seq w = Ok (a, w') ->
  a ∈ seq /\ clock w' = clock w /\ cursor w' = S (cursor w) /\ draws w' = draws w.
Proof.
  unfold choice, next_draw.
  destruct (seq !! _) as [a'|] eqn:E; [| discriminate].
  intros Heq; inversion Heq; subst. simpl.
  split; [eapply list_elem_of_lookup_2; eassumption | auto].
Qed.

Lemma choice_nonempty {A} (seq : list A) (w : world) :
  seq <> [] -> exists a w', choice seq w = Ok (a, w').
Proof.
  intros Hne. unfold choice, next_draw.
  destruct (lookup_lt_is_Some_2 seq (N.to_nat (draws w (cursor w)) mod length seq))
    as [a Ha].
  { apply Nat.mod_upper_bound. destruct seq; [congruence | discriminate]. }
  rewrite Ha. eauto.
Qed.

Lemma randint_inversion (a b : Z) (w : world) (v : Z) (w' : world) :
  randint a b w = Ok (v, w') ->
  a <= v <= b /\ clock w' = clock w /\ cursor w' = S (cursor w)
  /\ draws w' = draws w.
Proof.
  intros Hrun. split; [eapply randint_range; eassumption |].
  revert Hrun. unfold randint, next_draw.
  destruct (b <? a); [discriminate |].
  intros Heq; inversion Heq; subst. simpl. auto.
Qed.

Lemma randint_nonempty (a b : Z) (w : world) :
  a <= b -> exists v w', randint a b w = Ok (v, w').
Proof.
  intros Hab. unfold randint, next_draw.
  destruct (Z.ltb_spec b a); [lia | eauto].
Qed.

Lemma randint_empty (a b : Z) (w : world) :
  b < a -> randint a b w = Raise ValueError.
Proof.
  intros Hab. unfold randint. destruct (Z.ltb_spec b a); [reflexivity | lia].
Qed.

Lemma uniform_inversion (a b : Q) (w : world) (c : pyfloat) (w' : world) :
  uniform (FFin a) (FFin b) w = (c, w') ->
  is_nan c = false /\ clock w' = clock w /\ cursor w' = S (cursor w)
  /\ draws w' = draws w.
Proof.
  unfold uniform, random_unit, next_draw. simpl.
  intros Heq; inversion Heq; subst. simpl. auto.
Qed.

Lemma detect_one_inversion self frame i w d w' :
  detect_one self frame i w = Ok (d, w') ->
  exists W H,
    shape frame !! 1%nat = Some W /\ shape frame !! 0%nat = Some H
    /\ detection_of self W H (clock w) i d
    /\ clock w' = clock w /\ draws w' = draws w.
Proof.
  unfold detect_one, mbind, result_bind, mret, result_ret.
  destruct (choice _ w) as [[cls w1]|] eqn:E1; [| discriminate].
  destruct (uniform lit_0_6 lit_0_95 w1) as [conf w2] eqn:E2.
  unfold shape_at.
  destruct (shape frame !! 1%nat) as [W|]; [| discriminate].
  destruct (randint 0 (W - 100) w2) as [[bx w3]|] eqn:E3; [| discriminate].
  destruct (shape frame !! 0%nat) as [H|]; [| discriminate].
  destruct (randint 0 (H - 100) w3) as [[by_ w4]|] eqn:E4; [| discriminate].
  destruct (randint 50 150 w4) as [[bw w5]|] eqn:E5; [| discriminate].
  destruct (randint 50 150 w5) as [[bh w6]|] eqn:E6; [| discriminate].
  intros Heq; inversion Heq; subst; clear Heq.
  apply choice_inversion in E1. apply uniform_inversion in E2.
  apply randint_inversion in E3, E4, E5, E6.
  destruct E1 as (? & C1 & _ & D1), E2 as (? & C2 & _ & D2),
    E3 as (? & C3 & _ & D3), E4 as (? & C4 & _ & D4),
    E5 as (? & C5 & _ & D5), E6 as (? & C6 & _ & D6).
  assert (Hc : clock w' = clock w) by congruence.
  assert (Hd : draws w' = draws w) by congruence.
  exists W, H. split; [reflexivity |]. split; [reflexivity |].
  split; [| now split].
  unfold detection_of, time_time; simpl. rewrite Hc.
  repeat split; trivial; lia.
Qed.

Lemma detect_one_succeeds self frame i w W H :
  supported_classes self <> [] ->
  shape frame !! 1%nat = Some W -> shape frame !! 0%nat = Some H ->
  100 <= W -> 100 <= H ->
  exists d w', detect_one self frame i w = Ok (d, w').
Proof.
  intros Hne HW HH Hw Hh.
  unfold detect_one, mbind, result_bind, mret, result_ret.
  destruct (choice_nonempty (supported_classes self) w Hne) as (cls & w1 & ->).
  destruct (uniform lit_0_6 lit_0_95 w1) as [conf w2].
  unfold shape_at. rewrite HW, HH.
  destruct (randint_nonempty 0 (W - 100) w2 ltac:(lia)) as (bx & w3 & ->).
  destruct (randint_nonempty 0 (H - 100) w3 ltac:(lia)) as (by_ & w4 & ->).
  destruct (randint_nonempty 50 150 w4 ltac:(lia)) as (bw & w5 & ->).
  destruct (randint_nonempty 50 150 w5 ltac:(lia)) as (bh & w6 & ->).
  eauto.
Qed.

Lemma detect_loop_inversion self frame n : forall i acc w ds w',
  detect_loop self frame n i acc w = Ok (ds, w') ->
  exists new,
    ds = acc ++ new /\ length new = n /\ clock w' = clock w
    /\ forall (j : nat) d, new !! j = Some d ->
         exists W H,
           shape frame !! 1%nat = Some W /\ shape frame !! 0%nat = Some H
           /\ detection_of self W H (clock w) (i + Z.of_nat j) d.
Proof.
  induction n as [|n IH]; simpl; intros i acc w ds w'.
  - intros Heq; inversion Heq; subst. exists []. rewrite app_nil_r.
    repeat split; trivial. intros j d Hj. discriminate Hj.
  - unfold mbind, result_bind.
    destruct (detect_one self frame i w) as [[d w1]|] eqn:E1; [| discriminate].
    intros Hrun. apply IH in Hrun.
    destruct Hrun as (new & -> & Hlen & Hclock & Hall).
    apply detect_one_inversion in E1.
    destruct E1 as (W & H & HW & HH & Hd & Hc1 & _).
    exists (d :: new). rewrite <- app_assoc. simpl.
    split; [reflexivity |]. split; [now f_equal |]. split; [congruence |].
    intros [|j] e He; simpl in He.
    + inversion He; subst e. exists W, H. rewrite Z.add_0_r. auto.
    + destruct (Hall j e He) as (W' & H' & ? & ? & Hdet).
      exists W', H'. rewrite Hc1 in Hdet.
      replace (i + Z.of_nat (S j)) with (i + 1 + Z.of_nat j) by lia. auto.
Qed.

Lemma detect_loop_succeeds self frame W H n : forall i acc w,
  supported_classes self <> [] ->
  shape frame !! 1%nat = Some W -> shape frame !! 0%nat = Some H ->
  100 <= W -> 100 <= H ->
  exists ds w', detect_loop self frame n i acc w = Ok (ds, w').
Proof.
  induction n as [|n IH]; simpl; intros i acc w Hne HW HH Hw Hh; [eauto |].
  unfold mbind, result_bind.
  destruct (detect_one_succeeds self frame i w W H Hne HW HH Hw Hh)
    as (d & w1 & ->).
  now apply IH.
Qed.

End DetectInitialized.

Lemma detect_objects_inversion (B : Binary64) self frame metadata w ds w' :
  detect_objects self frame metadata w = Ok (ds, w') ->
  clock w' = clock w
  /\ (length ds <= 3)%nat
  /\ (initialized self = true -> (1 <= length ds)%nat)
  /\ forall (j : nat) d, ds !! j = Some d ->
       exists W H,
         shape frame !! 1%nat = Some W /\ shape frame !! 0%nat = Some H
         /\ detection_of self W H (clock w) (Z.of_nat j) d.
Proof.
  unfold detect_objects. destruct (initialized self); cbn [negb].
  - unfold mbind, result_bind.
    destruct (randint 1 3 w) as [[n w1]|] eqn:En; [| discriminate].
    apply randint_inversion in En. destruct En as (Hn & Hc & _).
    intros Hrun. apply detect_loop_inversion in Hrun.
    destruct Hrun as (new & -> & Hlen & Hclock & Hall). simpl.
    split; [congruence |]. split; [lia |]. split; [lia |].
    intros j d Hj. destruct (Hall j d Hj) as (W & H & ? & ? & Hdet).
    exists W, H. rewrite Hc in Hdet. auto.
  - intros Heq; inversion Heq; subst. simpl.
    split; [reflexivity |]. split; [lia |]. split; [discriminate |].
    intros j d Hj. discriminate Hj.
Qed.

(** X5.  On an initialized processor with at least one class and a frame
    of at least 100 by 100 pixels, [detect_objects] raises nothing and
    returns one to three detections; the detection at position [j] has
    the id [obj_j], a supported class, a confidence that is a number, the
    current time as timestamp and no semantic or emotional features.  The
    clock does not move. *)
Theorem detect_objects_usable_frame (B : Binary64)
    (self : MockVisionProcessor) (frame : ndarray)
    (metadata : option FrameMetadata) (w : world) (W H : Z) :
  initialized self = true ->
  supported_classes self <> [] ->
  shape frame !! 0%nat = Some H -> shape frame !! 1%nat = Some W ->
  100 <= H -> 100 <= W ->
  exists ds w',
    detect_objects self frame metadata w = Ok (ds, w')
    /\ (1 <= length ds <= 3)%nat
    /\ clock w' = clock w
    /\ forall (j : nat) d, ds !! j = Some d ->
         detection_of self W H (clock w) (Z.of_nat j) d.
Proof.
  intros Hinit Hne HH HW Hh Hw.
  assert (Hrun : exists ds w', detect_objects self frame metadata w = Ok (ds, w')).
  { unfold detect_objects. rewrite Hinit. cbn [negb].
    unfold mbind, result_bind.
    destruct (randint_nonempty 1 3 w ltac:(lia)) as (n & w1 & ->).
    now apply (detect_loop_succeeds B self frame W H). }
  destruct Hrun as (ds & w' & Hrun). exists ds, w'.
  split; [exact Hrun |].
  apply detect_objects_inversion in Hrun.
  destruct Hrun as (Hc & Hmax & Hmin & Hall).
  split; [specialize (Hmin Hinit); lia |]. split; [exact Hc |].
  intros j d Hj. destruct (Hall j d Hj) as (W' & H' & HW' & HH' & Hdet).
  congruence.
Qed.

Lemma detect_objects_usable_frame_witness :
  exists ds w',
    detect_objects (B := exact_arithmetic) (fst (initialize new_processor))
      (mkNdarray [480; 640; 3]) None (constant_world 12) = Ok (ds, w')
    /\ (1 <= length ds <= 3)%nat
    /\ clock w' = clock (constant_world 12)
    /\ forall (j : nat) d, ds !! j = Some d ->
         detection_of (fst (initialize new_processor)) 640 480
           (clock (constant_world 12)) (Z.of_nat j) d.
Proof.
  apply (detect_objects_usable_frame exact_arithmetic
           (fst (initialize new_processor)) (mkNdarray [480; 640; 3]) None
           (constant_world 12) 640 480);
    solve [reflexivity | discriminate | lia].
Defined.

(** X6.  Whatever [detect_objects] returns, the ids of the detections are
    pairwise different, and every box starts inside the frame, is at
    least 50 and at most 150 pixels wide and high, and has its centre
    strictly inside the frame; it may reach past the right or lower edge,
    by at most 50 pixels. *)
Theorem detect_objects_ids_and_boxes (B : Binary64)
    (self : MockVisionProcessor) (frame : ndarray)
    (metadata : option FrameMetadata) (w w' : world)
    (ds : list DetectedObject) :
  detect_objects self frame metadata w = Ok (ds, w') ->
  NoDup (object_id <$> ds)
  /\ forall d, d ∈ ds ->
       exists W H,
         shape frame !! 1%nat = Some W /\ shape frame !! 0%nat = Some H
         /\ 0 <= x (bounding_box d) < W /\ 0 <= y (bounding_box d) < H
         /\ 0 <= fst (center (bounding_box d)) < W
         /\ 0 <= snd (center (bounding_box d)) < H
         /\ x (bounding_box d) + width (bounding_box d) <= W + 50
         /\ y (bounding_box d) + height (bounding_box d) <= H + 50.
Proof.
  intros Hrun. apply detect_objects_inversion in Hrun.
  destruct Hrun as (_ & _ & _ & Hall). split.
  - apply NoDup_alt. intros i j s Hi Hj.
    rewrite list_lookup_fmap in Hi, Hj.
    destruct (ds !! i) as [d|] eqn:Ei; [| discriminate].
    destruct (ds !! j) as [e|] eqn:Ej; [| discriminate].
    simpl in Hi, Hj.
    destruct (Hall i d Ei) as (_ & _ & _ & _ & (Hid & _)).
    destruct (Hall j e Ej) as (_ & _ & _ & _ & (Hje & _)).
    assert (Heq : "obj_" +:+ str_of_int (Z.of_nat i)
                  = "obj_" +:+ str_of_int (Z.of_nat j)) by congruence.
    inversion Heq as [Hs]. apply str_of_int_inj in Hs. lia.
  - intros d Hd. apply list_elem_of_lookup in Hd. destruct Hd as [j Hj].
    destruct (Hall j d Hj) as (W & H & HW & HH & Hdet).
    destruct Hdet as (_ & _ & _ & Hx & Hy & Hw & Hh & _).
    exists W, H. unfold center; simpl.
    pose proof (Z.div_le_lower_bound (width (bounding_box d)) 2 25) as L1.
    pose proof (Z.div_le_upper_bound (width (bounding_box d)) 2 75) as U1.
    pose proof (Z.div_le_lower_bound (height (bounding_box d)) 2 25) as L2.
    pose proof (Z.div_le_upper_bound (height (bounding_box d)) 2 75) as U2.
    repeat split; trivial; lia.
Qed.

Lemma detect_objects_ids_and_boxes_witness :
  exists ds w',
    detect_objects (B := exact_arithmetic) (fst (initialize new_processor))
      (mkNdarray [100; 100]) None (constant_world 100) = Ok (ds, w')
    /\ NoDup (object_id <$> ds)
    /\ exists d, d ∈ ds /\ bounding_box d = mkBoundingBox 0 0 150 150.
Proof.
  eexists; eexists. split; [vm_compute; reflexivity |].
  split.
  - eapply (detect_objects_ids_and_boxes exact_arithmetic
              (fst (initialize new_processor)) (mkNdarray [100; 100]) None
              (constant_world 100)).
    vm_compute. reflexivity.
  - eexists. split; [apply list_elem_of_here | reflexivity].
Defined.

Lemma choice_empty {A} (w : world) : choice (@nil A) w = Raise IndexError.
Proof. reflexivity. Qed.

Lemma detect_loop_first_fails (B : Binary64) self frame n i acc w e :
  detect_one self frame i w = Raise e ->
  detect_loop self frame (S n) i acc w = Raise e.
Proof. intros Hone. simpl. unfold mbind, result_bind. now rewrite Hone. Qed.

Lemma detect_objects_first_fails (B : Binary64) self frame metadata w e :
  initialized self = true ->
  (forall i w1, detect_one self frame i w1 = Raise e) ->
  detect_objects self frame metadata w = Raise e.
Proof.
  intros Hinit Hone. unfold detect_objects. rewrite Hinit. cbn [negb].
  unfold mbind, result_bind.
  destruct (randint 1 3 w) as [[n w1]|] eqn:En.
  - apply randint_inversion in En. destruct En as (Hn & _).
    destruct (Z.to_nat n) as [|m] eqn:Em; [lia |].
    apply detect_loop_first_fails, Hone.
  - destruct (randint_nonempty 1 3 w ltac:(lia)) as (n & w1 & Hok). congruence.
Qed.

(** X7.  An initialized processor raises on a frame it cannot place a box
    in: IndexError when it has no class to choose from or the frame has
    fewer than two dimensions, ValueError when the frame is less than 100
    pixels wide or high. *)
Theorem detect_objects_unusable_frame (B : Binary64)
    (self : MockVisionProcessor) (frame : ndarray)
    (metadata : option FrameMetadata) (w : world) :
  initialized self = true ->
  (supported_classes self = [] ->
   detect_objects self frame metadata w = Raise IndexError)
  /\ (supported_classes self <> [] -> shape frame !! 1%nat = None ->
      detect_objects self frame metadata w = Raise IndexError)
  /\ (forall W, supported_classes self <> [] ->
        shape frame !! 1%nat = Some W -> W < 100 ->
        detect_objects self frame metadata w = Raise ValueError)
  /\ (forall W H, supported_classes self <> [] ->
        shape frame !! 1%nat = Some W -> 100 <= W ->
        shape frame !! 0%nat = Some H -> H < 100 ->
        detect_objects self frame metadata w = Raise ValueError).
Proof.
  intros Hinit. repeat split.
  - intros Hnil. apply detect_objects_first_fails; [assumption |].
    intros i w1. unfold detect_one. now rewrite Hnil.
  - intros Hne Hdim. apply detect_objects_first_fails; [assumption |].
    intros i w1. unfold detect_one, mbind, result_bind.
    destruct (choice_nonempty (supported_classes self) w1 Hne) as (cls & w2 & ->).
    destruct (uniform lit_0_6 lit_0_95 w2) as [conf w3].
    unfold shape_at. now rewrite Hdim.
  - intros W Hne HW Hw. apply detect_objects_first_fails; [assumption |].
    intros i w1. unfold detect_one, mbind, result_bind.
    destruct (choice_nonempty (supported_classes self) w1 Hne) as (cls & w2 & ->).
    destruct (uniform lit_0_6 lit_0_95 w2) as [conf w3].
    unfold shape_at. rewrite HW.
    now rewrite randint_empty by lia.
  - intros W H Hne HW Hw HH Hh. apply detect_objects_first_fails; [assumption |].
    intros i w1. unfold detect_one, mbind, result_bind.
    destruct (choice_nonempty (supported_classes self) w1 Hne) as (cls & w2 & ->).
    destruct (uniform lit_0_6 lit_0_95 w2) as [conf w3].
    unfold shape_at. rewrite HW, HH.
    destruct (randint_nonempty 0 (W - 100) w3 ltac:(lia)) as (bx & w4 & ->).
    now rewrite randint_empty by lia.
Qed.

Lemma detect_objects_unusable_frame_witness :
  initialized (fst (initialize new_processor)) = true
  /\ detect_objects (B := exact_arithmetic) (fst (initialize new_processor))
       (mkNdarray [99; 640; 3]) None (constant_world 5) = Raise ValueError
  /\ detect_objects (B := exact_arithmetic) (fst (initialize new_processor))
       (mkNdarray [480]) None (constant_world 5) = Raise IndexError.
Proof.
  split; [reflexivity |].
  destruct (detect_objects_unusable_frame exact_arithmetic
              (fst (initialize new_processor)) (mkNdarray [99; 640; 3]) None
              (constant_world 5) eq_refl) as (_ & _ & _ & Hshort).
  destruct (detect_objects_unusable_frame exact_arithmetic
              (fst (initialize new_processor)) (mkNdarray [480]) None
              (constant_world 5) eq_refl) as (_ & Hdims & _).
  split.
  - apply (Hshort 640 99); solve [discriminate | reflexivity | lia].
  - apply Hdims; [discriminate | reflexivity].
Defined.

(** ** The lifecycle of MockVisionProcessor *)

(** X8.  After any sequence of [initialize] and [cleanup] calls the
    processor is initialized exactly when the last call was [initialize]
    (with no call at all it is as it was), each [initialize] reports
    success, and the list of supported classes is never changed. *)
Theorem lifecycle_last_call_wins (self : MockVisionProcessor)
    (history : list lifecycle_call) :
  let self' := fold_left apply_call history self in
  initialized self'
  = match list.last history with
    | Some CallInitialize => true
    | Some CallCleanup => false
    | None => initialized self
    end
  /\ supported_classes self' = supported_classes self
  /\ snd (initialize self') = true.
Proof.
  cbv zeta. split; [| split; [| reflexivity]].
  - revert self. induction history as [|c history IH]; intros self; [reflexivity |].
    simpl fold_left. rewrite IH.
    destruct history as [|c' history']; [now destruct c |].
    change (list.last (c :: c' :: history')) with (list.last (c' :: history')).
    destruct (list.last (c' :: history')) as [[|]|] eqn:E; try reflexivity.
    apply last_None in E. discriminate E.
  - revert self. induction history as [|c history IH]; intros self; [reflexivity |].
    simpl. rewrite IH. now destruct c.
Qed.

(** ** BoundingBox.center *)

(** X9.  The centre is the midpoint of the box rounded down to the pixel
    grid, for any integers: twice the centre is the sum of both ends or
    one less.  For a box of positive width and height it is a pixel of
    the box. *)
Theorem center_is_floor_midpoint (b : BoundingBox) :
  let cx := fst (center b) in
  let cy := snd (center b) in
  (2 * cx <= x b + (x b + width b) <= 2 * cx + 1)
  /\ (2 * cy <= y b + (y b + height b) <= 2 * cy + 1)
  /\ (0 < width b -> x b <= cx < x b + width b)
  /\ (0 < height b -> y b <= cy < y b + height b)
  /\ (width b < 0 -> x b + width b <= cx < x b)
  /\ (height b < 0 -> y b + height b <= cy < y b).
Proof.
  unfold center; simpl.
  pose proof (Z.div_mod (width b) 2 ltac:(lia)) as Hw.
  pose proof (Z.mod_pos_bound (width b) 2 ltac:(lia)) as Hwm.
  pose proof (Z.div_mod (height b) 2 ltac:(lia)) as Hh.
  pose proof (Z.mod_pos_bound (height b) 2 ltac:(lia)) as Hhm.
  repeat split; lia.
Qed.

(** ** Reliability and confidence level *)

Lemma lit_0_5_le_0_7 : Fle lit_0_5 lit_0_7.
Proof. apply fle_Fle. reflexivity. Qed.

Lemma lit_0_7_le_0_75 : Fle lit_0_7 lit_0_75.
Proof. apply fle_Fle. reflexivity. Qed.

(** X10.  A detection reliable at some threshold is reliable at every
    lower one.  At the default threshold every HIGH or VERY_HIGH
    detection is reliable and no LOW one is; a MEDIUM one can be either.
    A detection whose confidence is NaN is LOW and reliable at no
    threshold. *)
Theorem reliability_and_level (o : DetectedObject) :
  (forall t t' : pyfloat,
     Fle t' t -> is_reliable o (Some t) = true -> is_reliable o (Some t') = true)
  /\ (confidence_level o = HIGH \/ confidence_level o = VERY_HIGH ->
      is_reliable o None = true)
  /\ (confidence_level o = LOW -> is_reliable o None = false)
  /\ (confidence o = lit_0_7 ->
      confidence_level o = MEDIUM /\ is_reliable o None = true)
  /\ (confidence o = lit_0_6 ->
      confidence_level o = MEDIUM /\ is_reliable o None = false)
  /\ (confidence o = FNaN ->
      confidence_level o = LOW /\ forall t, is_reliable o (Some t) = false).
Proof.
  split; [| split; [| split; [| split; [| split]]]].
  - intros t t' Hle.
    change (is_reliable o (Some t)) with (fle t (confidence o)).
    change (is_reliable o (Some t')) with (fle t' (confidence o)).
    rewrite !fle_Fle.
    intros Ht. eapply Fle_trans; eassumption.
  - intros Hlevel.
    change (is_reliable o None) with (fle lit_0_7 (confidence o)).
    apply fle_Fle.
    pose proof lit_0_7_le_0_75 as H775. pose proof lit_0_75_le_0_9 as H759.
    destruct (confidence_level_cases o)
      as [[P E]|[(P&_&E)|[(_&_&E)|[_ E]]]];
      try (destruct Hlevel; congruence); eauto using Fle_trans.
  - intros Hlevel.
    change (is_reliable o None) with (fle lit_0_7 (confidence o)).
    apply not_true_is_false. rewrite fle_Fle. intros Hrel.
    pose proof lit_0_5_le_0_7 as H57.
    destruct (confidence_level_cases o)
      as [[_ E]|[(_&_&E)|[(_&_&E)|[N _]]]]; try congruence.
    apply N. eapply Fle_trans; eassumption.
  - unfold confidence_level, is_reliable. now intros ->.
  - unfold confidence_level, is_reliable. now intros ->.
  - unfold confidence_level, is_reliable. intros ->. split; [reflexivity |].
    intros t. simpl. now destruct t.
Qed.

(** ** MockMusicGenerator: estimate, latency, limits *)

Lemma fmin_2_upper (a : pyfloat) : Fle (fmin lit_2_0 a) lit_2_0.
Proof.
  unfold fmin. destruct (flt a lit_2_0) eqn:E.
  - apply Flt_Fle. now apply flt_Flt.
  - apply fle_Fle. reflexivity.
Qed.

(** X11.  The estimated generation time is never more than two seconds,
    whatever the duration, NaN and infinities included; and a call of
    [generate_music] that returns has slept exactly the estimate for its
    parameters, stamped the audio with the time after the sleep, drawn no
    random number and attached no MIDI data. *)
Theorem generate_music_takes_the_estimate (B : Binary64) (L : Libm)
    (self : MockMusicGenerator) (h : nat -> MusicalParameters) (p : nat)
    (w : world) :
  Fle (estimate_generation_time self h p) lit_2_0
  /\ forall a w',
       generate_music self h p w = Ok (a, w') ->
       exists e : Q,
         estimate_generation_time self h p = FFin e
         /\ (0 <= e <= 2)%Q
         /\ clock w' = (clock w + e)%Q
         /\ draws w' = draws w /\ cursor w' = cursor w
         /\ generation_time a = Some (FFin (clock w'))
         /\ midi_data a = None.
Proof.
  split; [apply fmin_2_upper |].
  intros a w'. pose proof (fmin_2_upper (fmul (duration (h p)) lit_0_1)) as Hup.
  unfold generate_music, estimate_generation_time, mbind, result_bind, mret,
    result_ret.
  destruct (fmin lit_2_0 (fmul (duration (h p)) lit_0_1)) as [| |e|] eqn:Ee;
    try discriminate.
  destruct (time_sleep (FFin e) w) as [w1|] eqn:Es; [| discriminate].
  apply time_sleep_inversion in Es as (q & Hq & H0 & ->).
  inversion Hq; subst q; clear Hq.
  destruct (int_of_float _) as [samples|]; [| discriminate].
  destruct (linspace _ _ _) as [t|]; [| discriminate].
  intros Heq; inversion Heq; subst; clear Heq. simpl.
  exists e. inversion Hup; subst.
  repeat split; trivial.
Qed.

(** The estimate for a finite duration that is not positive is the
    rounded tenth of the duration: the cap of two seconds does not bind. *)
Lemma estimate_of_nonpositive (B : Binary64) (L : Libm)
    (self : MockMusicGenerator) (h : nat -> MusicalParameters) (p : nat)
    (x : Q) :
  Binary64Laws B -> duration (h p) = FFin x -> (x <= 0)%Q ->
  exists e : Q,
    estimate_generation_time self h p = FFin e /\ (e <= 0)%Q
    /\ e = rnd (x * (3602879701896397 # 36028797018963968)).
Proof.
  intros Laws Hx Hneg. unfold estimate_generation_time. rewrite Hx.
  cbn [fmul lit_0_1].
  set (r1 := rnd (x * (3602879701896397 # 36028797018963968))).
  assert (Hr1 : (r1 <= 0)%Q).
  { change 0%Q with (inject_Z 0). apply (rnd_le_int B Laws); [simpl; lia |].
    change (inject_Z 0) with 0%Q. nra. }
  exists r1. split; [| split; [assumption | reflexivity]].
  unfold fmin, flt, lit_2_0.
  assert (Qle_bool 2 r1 = false) as ->; [| reflexivity].
  apply not_true_is_false. rewrite Qle_bool_iff. lra.
Qed.

(** What [generate_music] does after a sleep that was let through, for a
    duration negative by at least one sample period: the sample count is
    negative and [np.linspace] raises ValueError. *)
Lemma negative_sample_count (B : Binary64) (x : Q) :
  Binary64Laws B -> (x <= - (1 # 44100))%Q ->
  linspace (of_int 0) (FFin x) (truncate (rnd (inject_Z 44100 * x)))
  = Raise ValueError.
Proof.
  intros Laws Hneg.
  set (s := truncate (rnd (inject_Z 44100 * x))).
  assert (Hs : s <= -1).
  { rewrite <- (truncate_inject_Z (-1)). apply truncate_mono.
    apply (rnd_le_int B Laws); [simpl; lia |].
    change (inject_Z 44100) with 44100%Q.
    change (inject_Z (-1)) with (- (1))%Q. lra. }
  unfold linspace. destruct (Z.ltb_spec s 0); [reflexivity | lia].
Qed.

(** X12.  A duration that is NaN, minus infinity, or negative by at least
    one sample period makes [generate_music] raise.  NaN: the estimate
    is the cap of two seconds, the sleep goes ahead and [int] raises
    ValueError.  Minus infinity: the estimate is minus infinity and
    [time.sleep] raises OverflowError.  A finite duration [x]: the estimate
    is a finite [e <= 0], the rounded tenth of [x]; [time.sleep] raises
    OverflowError when [e] in nanoseconds is below -(2^63 + 1024), and
    otherwise ValueError is raised, by [time.sleep] or by [np.linspace].
    So every duration from -9e10 up raises ValueError and every duration
    from -1e11 down raises OverflowError. *)
Theorem generate_music_rejects_bad_duration (B : Binary64) (L : Libm)
    (self : MockMusicGenerator) (h : nat -> MusicalParameters) (p : nat)
    (w : world) :
  Binary64Laws B ->
  (duration (h p) = FNaN -> generate_music self h p w = Raise ValueError)
  /\ (duration (h p) = FNegInf ->
      generate_music self h p w = Raise OverflowError)
  /\ (forall x : Q,
        duration (h p) = FFin x -> (x <= - (1 # 44100))%Q ->
        exists e : Q,
          estimate_generation_time self h p = FFin e /\ (e <= 0)%Q
          /\ generate_music self h p w
             = Raise (if Qle_bool (- (9223372036854776832)) (e * 1000000000)
                      then ValueError else OverflowError)
          /\ ((- (90000000000) <= x)%Q ->
              generate_music self h p w = Raise ValueError)
          /\ ((x <= - (100000000000))%Q ->
              generate_music self h p w = Raise OverflowError)).
Proof.
  intros Laws. split; [| split].
  - intros Hnan. unfold generate_music, estimate_generation_time, mbind,
      result_bind. rewrite Hnan. reflexivity.
  - intros Hninf. unfold generate_music, estimate_generation_time, mbind,
      result_bind. rewrite Hninf. reflexivity.
  - intros x Hx Hneg.
    destruct (estimate_of_nonpositive B L self h p x Laws Hx)
      as (e & He & He0 & Hee); [lra |].
    assert (Hgen : generate_music self h p w
                   = Raise (if Qle_bool (- (9223372036854776832))
                                 (e * 1000000000)
                            then ValueError else OverflowError)).
    { pose proof He as He'. unfold estimate_generation_time in He'.
      unfold generate_music, mbind, result_bind. rewrite He'.
      unfold time_sleep, sleep_in_range, sleep_wraps.
      assert (Qle_bool (e * 1000000000) 9223372036854776832 = true) as ->
        by (apply Qle_bool_iff; lra).
      assert (Qle_bool 9223372036854775296 (e * 1000000000) = false) as ->
        by (apply not_true_is_false; rewrite Qle_bool_iff; lra).
      assert (Qle_bool 9223372036 e = false) as ->
        by (apply not_true_is_false; rewrite Qle_bool_iff; lra).
      destruct (Qle_bool (- (9223372036854776832)) (e * 1000000000));
        [| reflexivity].
      cbn [andb negb orb]. destruct (Qle_bool 0 e); [| reflexivity].
      cbn [negb].
      rewrite Hx. cbn [fmul of_int int_of_float lit_10_0].
      assert (Hdur : fmin (FFin x) lit_10_0 = FFin x).
      { unfold fmin, flt, lit_10_0.
        assert (Qle_bool x 10 = true) as ->; [| reflexivity].
        apply Qle_bool_iff. lra. }
      rewrite Hdur. cbn [fmul of_int int_of_float].
      rewrite (negative_sample_count B x Laws Hneg). reflexivity. }
    exists e. split; [assumption |]. split; [assumption |].
    split; [assumption |]. split.
    + intros Hlow. rewrite Hgen.
      assert (Qle_bool (- (9223372036854776832)) (e * 1000000000) = true)
        as ->; [| reflexivity].
      apply Qle_bool_iff.
      assert (inject_Z (- 9100000000) <= e)%Q.
      { rewrite Hee. apply (rnd_ge_int B Laws); [simpl; lia |].
        change (inject_Z (- 9100000000)) with (- (9100000000))%Q. lra. }
      change (inject_Z (- 9100000000)) with (- (9100000000))%Q in *. lra.
    + intros Hhigh. rewrite Hgen.
      assert (Qle_bool (- (9223372036854776832)) (e * 1000000000) = false)
        as ->; [| reflexivity].
      apply not_true_is_false. rewrite Qle_bool_iff.
      assert (e <= inject_Z (- 10000000000))%Q.
      { rewrite Hee. apply (rnd_le_int B Laws); [simpl; lia |].
        change (inject_Z (- 10000000000)) with (- (10000000000))%Q. lra. }
      change (inject_Z (- 10000000000)) with (- (10000000000))%Q in *. lra.
Qed.

Lemma generate_music_rejects_bad_duration_witness :
  Binary64Laws exact_arithmetic
  /\ generate_music (B := exact_arithmetic) (L := silent_libm)
       (mkMockMusicGenerator true)
       (fun _ => set_duration folk_params FNaN) 0%nat (constant_world 0)
     = Raise ValueError
  /\ generate_music (B := exact_arithmetic) (L := silent_libm)
       (mkMockMusicGenerator true)
       (fun _ => set_duration folk_params FNegInf) 0%nat (constant_world 0)
     = Raise OverflowError
  /\ generate_music (B := exact_arithmetic) (L := silent_libm)
       (mkMockMusicGenerator true)
       (fun _ => set_duration folk_params (FFin (- (1 # 2)))) 0%nat
       (constant_world 0)
     = Raise ValueError
  /\ generate_music (B := exact_arithmetic) (L := silent_libm)
       (mkMockMusicGenerator true)
       (fun _ => set_duration folk_params (FFin (- (100000000000)))) 0%nat
       (constant_world 0)
     = Raise OverflowError.
Proof.
  split; [exact exact_arithmetic_laws |]. split; [| split; [| split]].
  - apply (generate_music_rejects_bad_duration exact_arithmetic silent_libm
             _ _ _ _ exact_arithmetic_laws). reflexivity.
  - apply (generate_music_rejects_bad_duration exact_arithmetic silent_libm
             _ _ _ _ exact_arithmetic_laws). reflexivity.
  - destruct (proj2 (proj2 (generate_music_rejects_bad_duration
        exact_arithmetic silent_libm (mkMockMusicGenerator true)
        (fun _ => set_duration folk_params (FFin (- (1 # 2)))) 0%nat
        (constant_world 0) exact_arithmetic_laws)) (- (1 # 2))%Q)
      as (e & _ & _ & _ & Hv & _);
      [reflexivity | apply Qle_bool_iff; reflexivity |].
    apply Hv. apply Qle_bool_iff. reflexivity.
  - destruct (proj2 (proj2 (generate_music_rejects_bad_duration
        exact_arithmetic silent_libm (mkMockMusicGenerator true)
        (fun _ => set_duration folk_params (FFin (- (100000000000)))) 0%nat
        (constant_world 0) exact_arithmetic_laws)) (- (100000000000))%Q)
      as (e & _ & _ & _ & _ & Ho);
      [reflexivity | apply Qle_bool_iff; reflexivity |].
    apply Ho. apply Qle_bool_iff. reflexivity.
Defined.

(** X13.  No audio of [generate_music] is longer than ten seconds: its
    duration is at most 10.0 and it holds at most 441000 samples; for a
    duration of ten seconds or more, plus infinity included, it is cut to
    exactly 10.0 seconds and 441000 samples. *)
Theorem generate_music_caps_at_ten_seconds (B : Binary64) (L : Libm)
    (self : MockMusicGenerator) (h : nat -> MusicalParameters) (p : nat)
    (w w' : world) (a : GeneratedAudio) :
  Binary64Laws B ->
  generate_music self h p w = Ok (a, w') ->
  Fle (ga_duration a) lit_10_0
  /\ 0 <= num_samples a <= 441000
  /\ (Fle lit_10_0 (duration (h p)) ->
      Feq (ga_duration a) lit_10_0 /\ num_samples a = 441000).
Proof.
  intros Laws Hrun. apply generate_music_inversion in Hrun.
  destruct Hrun as (d & Hmin & Hdur & _ & _ & Hnum & Hpos).
  pose proof (fmin_10_upper _ _ Hmin) as Hd.
  assert (Hx : (inject_Z 44100 * d <= inject_Z 441000)%Q).
  { change (inject_Z 44100) with 44100%Q.
    change (inject_Z 441000) with 441000%Q. lra. }
  rewrite Hdur. split; [now constructor |]. split.
  - split; [assumption |]. rewrite Hnum.
    rewrite <- (truncate_inject_Z 441000). apply truncate_mono.
    apply (rnd_le_int B Laws); [simpl; lia | assumption].
  - intros Hlong.
    assert (Hd10 : (10 <= d)%Q).
    { revert Hmin. unfold fmin.
      destruct (flt lit_10_0 (duration (h p))) eqn:E.
      - intros Heq; inversion Heq. apply Qle_refl.
      - intros Heq. rewrite Heq in Hlong. now inversion Hlong. }
    split; [constructor; now apply Qle_antisym |].
    apply Z.le_antisymm.
    + rewrite Hnum. rewrite <- (truncate_inject_Z 441000). apply truncate_mono.
      apply (rnd_le_int B Laws); [simpl; lia | assumption].
    + rewrite Hnum. rewrite <- (truncate_inject_Z 441000) at 1.
      apply truncate_mono. apply (rnd_ge_int B Laws); [simpl; lia |].
      change (inject_Z 44100) with 44100%Q.
      change (inject_Z 441000) with 441000%Q. lra.
Qed.

Lemma generate_music_caps_at_ten_seconds_witness :
  Binary64Laws exact_arithmetic
  /\ exists a w',
       generate_music (B := exact_arithmetic) (L := silent_libm)
         (mkMockMusicGenerator false) short_store 0%nat (constant_world 0)
       = Ok (a, w')
       /\ Fle (ga_duration a) lit_10_0
       /\ 0 <= num_samples a <= 441000.
Proof.
  split; [exact exact_arithmetic_laws |].
  eexists; eexists. split; [vm_compute; reflexivity |].
  destruct (generate_music_caps_at_ten_seconds exact_arithmetic silent_libm
              (mkMockMusicGenerator false) short_store 0%nat (constant_world 0)
              _ _ exact_arithmetic_laws ltac:(vm_compute; reflexivity))
    as (Hdur & Hnum & _).
  split; [exact Hdur | exact Hnum].
Defined.

(** X14.  Of the parameters [generate_music] reads the duration and the
    tonic only: two parameter sets with the same duration and the same
    tonic frequency give the same samples, sample rate and duration, or
    the same exception, whatever their tempo, style, instruments, dials,
    mode or time signature, and whether or not the generator was
    initialized.  A tonic outside C, D, E, F, G, A, B plays like A. *)
Theorem generate_music_reads_duration_and_tonic (B : Binary64) (L : Libm)
    (self self' : MockMusicGenerator) (h h' : nat -> MusicalParameters)
    (p p' : nat) (w : world) :
  duration (h p) = duration (h' p') ->
  frequency_of (tonic (key (h p))) = frequency_of (tonic (key (h' p'))) ->
  generate_music self' h' p' w
  = match generate_music self h p w with
    | Ok (a, w1) => Ok (with_parameters a p', w1)
    | Raise e => Raise e
    end.
Proof.
  unfold frequency_of. intros Hd Hf.
  unfold generate_music, mbind, result_bind, mret, result_ret.
  rewrite <- Hd, <- Hf.
  destruct (time_sleep _ w) as [w1|]; [| reflexivity].
  destruct (int_of_float _) as [samples|]; [| reflexivity].
  destruct (linspace _ _ _) as [t|]; reflexivity.
Qed.

Lemma generate_music_reads_duration_and_tonic_witness :
  duration rock_in_h = duration jazz_in_a
  /\ frequency_of (tonic (key rock_in_h)) = frequency_of "A"
  /\ generate_music (B := exact_arithmetic) (L := silent_libm)
       (mkMockMusicGenerator false) (fun _ => rock_in_h) 7%nat (constant_world 0)
     = match generate_music (B := exact_arithmetic) (L := silent_libm)
               (mkMockMusicGenerator true) (fun _ => jazz_in_a) 3%nat
               (constant_world 0) with
       | Ok (a, w1) => Ok (with_parameters a 7%nat, w1)
       | Raise e => Raise e
       end.
Proof.
  split; [reflexivity |]. split; [reflexivity |].
  exact (generate_music_reads_duration_and_tonic exact_arithmetic silent_libm
           (mkMockMusicGenerator true) (mkMockMusicGenerator false)
           (fun _ => jazz_in_a) (fun _ => rock_in_h) 3%nat 7%nat
           (constant_world 0) eq_refl eq_refl).
Defined.

(** ** generate_transition *)

Lemma generate_music_reads_one_object (B : Binary64) (L : Libm)
    (self self' : MockMusicGenerator) (h h' : nat -> MusicalParameters)
    (p : nat) (w : world) :
  h p = h' p -> generate_music self h p w = generate_music self' h' p w.
Proof. intros Heq. unfold generate_music. now rewrite Heq. Qed.

(** X15.  The audio of a transition depends on the target and the
    transition duration only: the parameters passed as [from_params], the
    duration the target had before, the rest of the store and the state
    of the generator make no difference.  It lasts the transition
    duration, cut to 10.0 seconds, and refers to the target. *)
Theorem generate_transition_reads_target_only (B : Binary64) (L : Libm)
    (self self' : MockMusicGenerator) (h h' : nat -> MusicalParameters)
    (from_params from_params' to_params : nat)
    (transition_duration : option pyfloat) (w : world) :
  (exists d0, h' to_params = set_duration (h to_params) d0) ->
  snd (generate_transition self h from_params to_params transition_duration w)
  = snd (generate_transition self' h' from_params' to_params
           transition_duration w)
  /\ forall a w',
       snd (generate_transition self h from_params to_params
              transition_duration w) = Ok (a, w') ->
       ga_duration a = fmin (default lit_4_0 transition_duration) lit_10_0
       /\ parameters a = to_params.
Proof.
  intros [d0 Hd0]. unfold generate_transition; simpl. split.
  - apply generate_music_reads_one_object.
    rewrite !fn_lookup_insert, Hd0. reflexivity.
  - intros a w' Hrun. apply generate_music_inversion in Hrun.
    destruct Hrun as (d & Hmin & Hdur & _ & Hp & _).
    rewrite fn_lookup_insert in Hmin. simpl in Hmin.
    split; [congruence | exact Hp].
Qed.

Lemma generate_transition_reads_target_only_witness :
  (exists d0, short_store 0%nat = set_duration (demo_store 0%nat) d0)
  /\ snd (generate_transition (B := exact_arithmetic) (L := silent_libm)
            (mkMockMusicGenerator true) demo_store 1%nat 0%nat
            (Some (FFin (1 # 4096))) (constant_world 0))
     = snd (generate_transition (B := exact_arithmetic) (L := silent_libm)
              (mkMockMusicGenerator false) short_store 5%nat 0%nat
              (Some (FFin (1 # 4096))) (constant_world 0)).
Proof.
  assert (Hsame : exists d0, short_store 0%nat = set_duration (demo_store 0%nat) d0)
    by (eexists; reflexivity).
  split; [exact Hsame |].
  exact (proj1 (generate_transition_reads_target_only exact_arithmetic
                  silent_libm (mkMockMusicGenerator true)
                  (mkMockMusicGenerator false) demo_store short_store
                  1%nat 5%nat 0%nat (Some (FFin (1 # 4096)))
                  (constant_world 0) Hsame)).
Defined.

(** ** What the serialized forms tell apart *)

Lemma to_dict_of_components {T : StrTitle} (p q : MusicalParameters) :
  serialized_alike p q -> to_dict p = to_dict q.
Proof.
  intros (H1 & H2 & H3 & H4 & H5 & H6 & H7 & H8 & H9 & H10 & H11 & H12
          & H13 & H14).
  unfold to_dict. rewrite !secondary_tags. unfold tags.
  now rewrite H1, H2, H3, H4, H5, H6, H7, H8, H9, H10, H11, H12, H13, H14.
Qed.

Lemma components_of_to_dict {T : StrTitle} (p q : MusicalParameters) :
  to_dict p = to_dict q -> serialized_alike p q.
Proof.
  intros Heq.
  destruct (to_dict_lookups p)
    as (P1 & P2 & P3 & P4 & P5 & P6 & P7 & P8 & P9 & P10 & P11 & P12 & P13 & P14).
  destruct (to_dict_lookups q)
    as (Q1 & Q2 & Q3 & Q4 & Q5 & Q6 & Q7 & Q8 & Q9 & Q10 & Q11 & Q12 & Q13 & Q14).
  rewrite Heq in P1, P2, P3, P4, P5, P6, P7, P8, P9, P10, P11, P12, P13, P14.
  rewrite P1 in Q1. rewrite P2 in Q2. rewrite P3 in Q3. rewrite P4 in Q4.
  rewrite P5 in Q5. rewrite P6 in Q6. rewrite P7 in Q7. rewrite P8 in Q8.
  rewrite P9 in Q9. rewrite P10 in Q10. rewrite P11 in Q11.
  rewrite P12 in Q12. rewrite P13 in Q13. rewrite P14 in Q14.
  inversion Q1; inversion Q2; inversion Q3; inversion Q4; inversion Q5;
    inversion Q6; inversion Q7; inversion Q8; inversion Q9; inversion Q10;
    inversion Q11; inversion Q12; inversion Q13; inversion Q14.
  unfold serialized_alike, MusicalKey_str. repeat split; trivial.
  - now apply TimeSignature_str_inj.
  - now apply MusicStyle_value_inj.
  - now apply instrument_tags_inj.
  - now apply instrument_tags_inj.
Qed.

(** X16.  Two parameter sets have the same serialized form exactly when
    they agree on tempo, printed key, time signature, style, primary
    instruments, secondary instruments with [None] read as empty, the four
    dials, duration, harmonic richness, rhythmic complexity and melodic
    range.  The fade times play no part: changing them changes nothing in
    the serialized form. *)
Theorem to_dict_equal_iff (T : StrTitle) (p q : MusicalParameters) :
  (to_dict p = to_dict q <-> serialized_alike p q)
  /\ forall fade_in fade_out : pyfloat,
       to_dict (set_fades p fade_in fade_out) = to_dict p.
Proof.
  split; [split; [apply components_of_to_dict | apply to_dict_of_components] |].
  intros fade_in fade_out. apply to_dict_of_components.
  unfold serialized_alike. repeat split.
Qed.

(** X17.  Two time signatures print as the same "N/D" string only when
    they are the same: the printed form can be read back without loss,
    negative and zero parts included. *)
Theorem time_signature_str_injective (t u : TimeSignature) :
  TimeSignature_str t = TimeSignature_str u <-> t = u.
Proof.
  split; [apply TimeSignature_str_inj | now intros ->].
Qed.

Lemma to_upper_cased (c : ascii) :
  is_lower c = true ->
  is_lower (to_upper c) = false /\ is_upper (to_upper c) = true.
Proof.
  destruct c as [[] [] [] [] [] [] [] []]; intros Hc;
    solve [discriminate Hc | split; reflexivity].
Qed.

Lemma to_lower_cased (c : ascii) :
  is_lower c = false -> is_upper c = true -> is_lower (to_lower c) = true.
Proof.
  destruct c as [[] [] [] [] [] [] [] []]; intros Hl Hu;
    solve [discriminate Hl | discriminate Hu | reflexivity].
Qed.

Lemma title_from_idempotent (s : string) :
  forall b : bool, title_from b (title_from b s) = title_from b s.
Proof.
  induction s as [|c s IH]; intros b; simpl; [reflexivity |].
  destruct (is_lower c) eqn:El.
  - destruct b; simpl.
    + rewrite El. now rewrite IH.
    + destruct (to_upper_cased c El) as [-> ->]. now rewrite IH.
  - destruct (is_upper c) eqn:Eu.
    + destruct b; simpl.
      * rewrite (to_lower_cased c El Eu). now rewrite IH.
      * rewrite El, Eu. now rewrite IH.
    + simpl. rewrite El, Eu. now rewrite IH.
Qed.

Lemma space_split (s1 s2 t1 t2 : string) :
  no_space s1 = true -> no_space s2 = true ->
  s1 +:+ " " +:+ t1 = s2 +:+ " " +:+ t2 -> s1 = s2 /\ t1 = t2.
Proof.
  revert s2. induction s1 as [|c s1 IH]; intros [|c' s2]; simpl;
    intros H1 H2 Heq.
  - inversion Heq. now split.
  - inversion Heq; subst c'. discriminate H2.
  - inversion Heq; subst c. discriminate H1.
  - inversion Heq; subst c'.
    apply andb_prop in H1, H2. destruct H1 as [_ H1], H2 as [_ H2].
    destruct (IH s2 H1 H2) as [-> ->]; [assumption | now split].
Qed.

Lemma title_from_ascii_text (s : string) :
  forall b : bool, ascii_text s = true -> ascii_text (title_from b s) = true.
Proof.
  induction s as [|c rest IH]; intros b Hs; [reflexivity |].
  rewrite title_from_cons. cbn [ascii_text] in Hs |- *.
  apply andb_prop in Hs. destruct Hs as [Hc Hrest].
  apply andb_true_intro. split; [| now apply IH].
  rewrite title_from_code. cbv zeta. apply Nat.ltb_lt in Hc. apply Nat.ltb_lt.
  unfold upper_code, lower_code.
  destruct b;
    destruct (Nat.leb_spec 65 (nat_of_ascii c)),
      (Nat.leb_spec (nat_of_ascii c) 90),
      (Nat.leb_spec 97 (nat_of_ascii c)),
      (Nat.leb_spec (nat_of_ascii c) 122); cbn [andb]; lia.
Qed.

(** X18.  Whatever [title] does beyond ASCII: for tonics without a space,
    two keys print alike exactly when they have the same tonic and the
    same title-cased mode.  And a key whose mode is ASCII text prints the
    same with its mode as given and with its mode title-cased, so the
    printed form does not tell such a mode from its title case. *)
Theorem musical_key_str_up_to_case (T : StrTitle) (k k' : MusicalKey) :
  StrTitleLaws T ->
  (ascii_text (mode k) = true ->
   MusicalKey_str (mkMusicalKey (tonic k) (title (mode k))) = MusicalKey_str k)
  /\ (no_space (tonic k) = true -> no_space (tonic k') = true ->
      (MusicalKey_str k = MusicalKey_str k'
       <-> tonic k = tonic k' /\ title (mode k) = title (mode k'))).
Proof.
  intros Laws. split.
  - intros Hascii. unfold MusicalKey_str; simpl.
    rewrite (title_ascii (mode k) Hascii).
    rewrite (title_ascii (ascii_title (mode k)))
      by now apply title_from_ascii_text.
    unfold ascii_title. now rewrite title_from_idempotent.
  - intros Hk Hk'. unfold MusicalKey_str. split.
    + intros Heq. now apply space_split in Heq.
    + intros [-> ->]. reflexivity.
Qed.

Lemma musical_key_str_up_to_case_witness :
  StrTitleLaws ascii_only_title
  /\ MusicalKey_str (T := ascii_only_title) (mkMusicalKey "A" "Minor")
     = MusicalKey_str (T := ascii_only_title) (mkMusicalKey "A" "minor")
  /\ MusicalKey_str (T := ascii_only_title) (mkMusicalKey "A" "minor")
     <> MusicalKey_str (T := ascii_only_title) (mkMusicalKey "A" "major").
Proof.
  destruct (musical_key_str_up_to_case ascii_only_title
              (mkMusicalKey "A" "minor") (mkMusicalKey "A" "major")
              ascii_only_title_laws) as [Hcase Hiff].
  split; [exact ascii_only_title_laws |].
  split; [exact (Hcase eq_refl) |].
  intros Heq. apply (Hiff eq_refl eq_refl) in Heq.
  destruct Heq as [_ Hmode]. discriminate Hmode.
Defined.

(** ** The demo: detection, mapping, listing *)

Lemma uniform_nonneg (B : Binary64) (a b : Q) (w : world) :
  Binary64Laws B -> (0 <= a)%Q -> (a <= b)%Q ->
  exists q : Q,
    fst (uniform (FFin a) (FFin b) w) = FFin q /\ (0 <= q)%Q
    /\ clock (snd (uniform (FFin a) (FFin b) w)) = clock w.
Proof.
  intros Laws Ha Hab.
  assert (Hr0 : forall y : Q, (0 <= y)%Q -> (0 <= rnd y)%Q).
  { intros y Hy. change 0%Q with (inject_Z 0).
    apply (rnd_ge_int B Laws); [simpl; lia | assumption]. }
  unfold uniform, random_unit, next_draw. simpl.
  eexists. split; [reflexivity |]. split; [| reflexivity].
  apply Hr0.
  assert (Hu : (0 <= Z.of_N (draws w (cursor w)) mod 2 ^ 53
                     # 9007199254740992)%Q).
  { unfold Qle; simpl.
    pose proof (Z.mod_pos_bound (Z.of_N (draws w (cursor w))) (2 ^ 53)).
    lia. }
  assert (Hd : (0 <= rnd (b - a))%Q) by (apply Hr0; lra).
  assert (Hp : (0 <= rnd (rnd (b - a)
                  * (Z.of_N (draws w (cursor w)) mod 2 ^ 53
                     # 9007199254740992)))%Q).
  { apply Hr0. now apply Qmult_le_0_compat. }
  lra.
Qed.

(** Between bounds in the unit interval the draw is at most two, however
    the three roundings fall. *)
Lemma uniform_unit_bounded (B : Binary64) (a b : Q) (w : world) :
  Binary64Laws B -> (0 <= a)%Q -> (a <= b)%Q -> (b <= 1)%Q ->
  exists q : Q,
    fst (uniform (FFin a) (FFin b) w) = FFin q /\ (0 <= q <= 2)%Q
    /\ clock (snd (uniform (FFin a) (FFin b) w)) = clock w.
Proof.
  intros Laws Ha Hab Hb.
  destruct (uniform_nonneg B a b w Laws Ha Hab) as (q & Hq & Hq0 & Hc).
  exists q. split; [assumption |]. split; [| assumption].
  split; [assumption |].
  assert (Hr1 : forall (y : Q) (k : Z),
             (Z.abs k <= 2 ^ 53)%Z -> (y <= inject_Z k)%Q ->
             (rnd y <= inject_Z k)%Q).
  { intros y k Hk Hy. now apply (rnd_le_int B Laws). }
  revert Hq. unfold uniform, random_unit, next_draw. simpl.
  intros Heq; inversion Heq; subst q; clear Heq.
  assert (Hu : (0 <= Z.of_N (draws w (cursor w)) mod 2 ^ 53
                     # 9007199254740992)%Q
               /\ (Z.of_N (draws w (cursor w)) mod 2 ^ 53
                     # 9007199254740992 <= 1)%Q).
  { unfold Qle; simpl.
    pose proof (Z.mod_pos_bound (Z.of_N (draws w (cursor w))) (2 ^ 53)).
    lia. }
  destruct Hu as [Hu0 Hu1].
  assert (Hd0 : (0 <= rnd (b - a))%Q).
  { change 0%Q with (inject_Z 0).
    apply (rnd_ge_int B Laws); [simpl; lia |].
    change (inject_Z 0) with 0%Q. lra. }
  assert (Hd1 : (rnd (b - a) <= 1)%Q).
  { change 1%Q with (inject_Z 1). apply Hr1; [simpl; lia |].
    change (inject_Z 1) with 1%Q. lra. }
  assert (Hp : (rnd (rnd (b - a)
                  * (Z.of_N (draws w (cursor w)) mod 2 ^ 53
                     # 9007199254740992)) <= 1)%Q).
  { change 1%Q with (inject_Z 1). apply Hr1; [simpl; lia |].
    change (inject_Z 1) with 1%Q. nra. }
  change 2%Q with (inject_Z 2). apply Hr1; [simpl; lia |].
  change (inject_Z 2) with 2%Q. lra.
Qed.

Lemma simulate_object_detection_runs (B : Binary64)
    (self : ObjectToMusicDemo) (w : world) :
  Binary64Laws B ->
  available_objects self <> [] ->
  exists obj w',
    simulate_object_detection self w = Ok (obj, w')
    /\ obj ∈ available_objects self
    /\ (clock w <= clock w')%Q.
Proof.
  intros Laws Hne.
  unfold simulate_object_detection, mbind, result_bind, mret, result_ret.
  destruct (choice (available_objects self) w) as [[obj w1]|] eqn:Ec.
  2:{ destruct (choice_nonempty (available_objects self) w Hne)
        as (? & ? & Hok). congruence. }
  apply choice_inversion in Ec. destruct Ec as (Hin & Hc1 & _).
  destruct (uniform_unit_bounded B (3602879701896397 # 36028797018963968)
              (5404319552844595 # 18014398509481984) w1 Laws)
    as (q & Hq & [Hq0 Hq2] & Hc2);
    [apply Qle_bool_iff; reflexivity | apply Qle_bool_iff; reflexivity
    | apply Qle_bool_iff; reflexivity |].
  fold lit_0_1 lit_0_3 in Hq, Hc2.
  destruct (uniform lit_0_1 lit_0_3 w1) as [pt w2]. simpl in Hq, Hc2. subst pt.
  rewrite (time_sleep_advances q w2 Hq0) by lra.
  destruct (uniform lit_0_85 lit_0_99 _) as [shown w4] eqn:Eu.
  apply uniform_inversion in Eu. destruct Eu as (_ & Hc4 & _).
  simpl in Hc4.
  exists obj, w4. split; [reflexivity |]. split; [exact Hin |].
  rewrite Hc4, Hc2, Hc1. lra.
Qed.

(** X19.  With no object to choose from, the simulated detection raises
    IndexError; otherwise it returns one of the available objects, raises
    nothing, and only lets time pass. *)
Theorem simulate_object_detection_picks_available (B : Binary64)
    (self : ObjectToMusicDemo) (w : world) :
  Binary64Laws B ->
  (available_objects self = [] ->
   simulate_object_detection self w = Raise IndexError)
  /\ (available_objects self <> [] ->
      exists obj w',
        simulate_object_detection self w = Ok (obj, w')
        /\ obj ∈ available_objects self
        /\ (clock w <= clock w')%Q).
Proof.
  intros Laws. split.
  - intros Hnil. unfold simulate_object_detection. now rewrite Hnil.
  - now apply simulate_object_detection_runs.
Qed.

Lemma simulate_object_detection_picks_available_witness :
  Binary64Laws exact_arithmetic
  /\ simulate_object_detection (B := exact_arithmetic)
       (mkObjectToMusicDemo "demo/assets" [] _load_music_mappings)
       (constant_world 3) = Raise IndexError
  /\ exists obj w',
       simulate_object_detection (B := exact_arithmetic) (new_demo None)
         (constant_world 3) = Ok (obj, w')
       /\ obj ∈ available_objects (new_demo None)
       /\ (clock (constant_world 3) <= clock w')%Q.
Proof.
  split; [exact exact_arithmetic_laws |].
  destruct (simulate_object_detection_picks_available exact_arithmetic
              (mkObjectToMusicDemo "demo/assets" [] _load_music_mappings)
              (constant_world 3) exact_arithmetic_laws) as [Hempty _].
  destruct (simulate_object_detection_picks_available exact_arithmetic
              (new_demo None) (constant_world 3) exact_arithmetic_laws)
    as [_ Hpick].
  split; [exact (Hempty eq_refl) |].
  apply Hpick. discriminate.
Defined.

Lemma generate_music_params_inversion self obj w params w' :
  generate_music_params self obj w = Ok (params, w') ->
  params = selected_params self obj /\ loggable params.
Proof.
  unfold generate_music_params, selected_params, mbind, result_bind, mret,
    result_ret.
  set (sel := match music_mappings self !! obj with
              | Some entry => entry
              | None => fallback_params
              end).
  destruct (time_sleep lit_0_2 w) as [w1|]; [| discriminate].
  unfold getitem.
  destruct (sel !! "style") as [s|] eqn:Es; [| discriminate].
  destruct (sel !! "key") as [k|] eqn:Ek; [| discriminate].
  destruct (sel !! "tempo") as [t|] eqn:Et; [| discriminate].
  intros Heq; inversion Heq; subst. split; [reflexivity |].
  unfold loggable. rewrite Es, Ek, Et. eauto.
Qed.

(** X20.  Detection followed by mapping never raises on a demo that has
    objects to detect and whose table entries carry the keys style, key
    and tempo: the object is one of the available ones and the parameters
    are its table entry, or the fallback when it has none. *)
Theorem detection_then_mapping (B : Binary64) (self : ObjectToMusicDemo)
    (w : world) :
  Binary64Laws B ->
  available_objects self <> [] ->
  map_Forall (fun _ entry => loggable entry) (music_mappings self) ->
  exists obj params w',
    ('(obj, w1) ← simulate_object_detection self w;
     generate_music_params self obj w1) = Ok (params, w')
    /\ obj ∈ available_objects self
    /\ params = selected_params self obj
    /\ loggable params.
Proof.
  intros Laws Hne Hwf.
  destruct (simulate_object_detection_runs B self w Laws Hne)
    as (obj & w1 & Hdet & Hin & _).
  assert (Hlog : loggable (selected_params self obj)).
  { unfold selected_params.
    destruct (music_mappings self !! obj) as [entry|] eqn:E.
    - exact (Hwf _ _ E).
    - apply music_entry_loggable. }
  exists obj, (selected_params self obj). eexists.
  rewrite Hdet. simpl.
  split; [apply generate_music_params_returns; [exact Hlog | reflexivity] |].
  auto.
Qed.

Lemma detection_then_mapping_witness :
  Binary64Laws exact_arithmetic
  /\ available_objects (new_demo None) <> []
  /\ map_Forall (fun _ entry => loggable entry) (music_mappings (new_demo None))
  /\ exists obj params w',
       ('(obj, w1) ← simulate_object_detection (B := exact_arithmetic)
                       (new_demo None) (constant_world 5);
        generate_music_params (new_demo None) obj w1) = Ok (params, w')
       /\ obj ∈ available_objects (new_demo None)
       /\ params = selected_params (new_demo None) obj
       /\ loggable params.
Proof.
  assert (Hne : available_objects (new_demo None) <> []) by discriminate.
  split; [exact exact_arithmetic_laws |]. split; [exact Hne |].
  split; [exact load_music_mappings_loggable |].
  exact (detection_then_mapping exact_arithmetic (new_demo None)
           (constant_world 5) exact_arithmetic_laws Hne
           load_music_mappings_loggable).
Defined.

(** X21.  The listing of [show_system_info] and the mapping agree on the
    style of an object that has a table entry, and disagree on one that
    has none: the listing shows "Default", the mapping plays "Ambient". *)
Theorem listed_style_and_mapped_style (self : ObjectToMusicDemo)
    (obj : string) (w w' : world) (params : gmap string pyval) :
  generate_music_params self obj w = Ok (params, w') ->
  (is_Some (music_mappings self !! obj) ->
   params !! "style" = Some (listed_style self obj))
  /\ (music_mappings self !! obj = None ->
      listed_style self obj = VStr "Default"
      /\ params !! "style" = Some (VStr "Ambient")).
Proof.
  intros Hrun. apply generate_music_params_inversion in Hrun.
  destruct Hrun as (-> & ([s Hs] & _)).
  unfold selected_params, listed_style in *. split.
  - intros [entry Hentry]. rewrite Hentry in *. simpl. now rewrite Hs.
  - intros Hnone. rewrite Hnone. split; reflexivity.
Qed.

Lemma listed_style_and_mapped_style_witness :
  exists params w',
    generate_music_params (new_demo None) "phone" (constant_world 0)
    = Ok (params, w')
    /\ "phone" ∈ available_objects (new_demo None)
    /\ listed_style (new_demo None) "phone" = VStr "Default"
    /\ params !! "style" = Some (VStr "Ambient").
Proof.
  eexists; eexists. split; [vm_compute; reflexivity |].
  split; [apply list_elem_of_In; simpl; tauto |].
  eapply (listed_style_and_mapped_style (new_demo None) "phone"
            (constant_world 0)); [vm_compute; reflexivity | reflexivity].
Defined.
